(** * Library manager (project4.py): a shallow embedding and its properties

    The development follows [src/project4.py]: the [Book] class, the
    [LibraryManager] class with its JSON persistence, and the staff menu
    that adds books.  State is threaded explicitly through a [World] that
    holds the manager object, the data file and what was printed. *)

From Stdlib Require Import ZArith List String Ascii Bool Lia.
Import ListNotations.
Open Scope string_scope.
Open Scope Z_scope.

(** ** Strings: case and the [in] operator

    A Python string is modelled by the bytes of its UTF-8 encoding: one
    string occurs in another as a run of code points exactly when its
    bytes occur in the bytes of the other.  [str.lower] belongs to the
    Python library, not to the program; the search takes it as a
    parameter [lower], and only its behaviour on ASCII text is written
    out here. *)

Module Str.

Definition is_upper (c : ascii) : bool :=
  let n := nat_of_ascii c in (Nat.leb 65 n && Nat.leb n 90)%bool.

(** [str.lower] on one ASCII character: the letters A-Z go to a-z, every
    other character stays. *)
Definition ascii_lower_char (c : ascii) : ascii :=
  if is_upper c then ascii_of_nat (nat_of_ascii c + 32) else c.

(** [str.lower] on a string of ASCII characters. *)
Fixpoint ascii_lower (s : string) : string :=
  match s with
  | EmptyString => EmptyString
  | String c s' => String (ascii_lower_char c) (ascii_lower s')
  end.

(** [s.isascii()]: every character is below 128. *)
Fixpoint is_ascii (s : string) : bool :=
  match s with
  | EmptyString => true
  | String c s' => (Nat.ltb (nat_of_ascii c) 128 && is_ascii s')%bool
  end.

(** [sub in s]: does [sub] occur in [s] as a contiguous substring? *)
Fixpoint contains (sub s : string) : bool :=
  (String.prefix sub s
   || match s with
      | EmptyString => false
      | String _ s' => contains sub s'
      end)%bool.

(** The letters of the ASCII alphabet, capital and small, side by side. *)
Definition case_pairs : list (ascii * ascii) :=
  combine (list_ascii_of_string "ABCDEFGHIJKLMNOPQRSTUVWXYZ")
          (list_ascii_of_string "abcdefghijklmnopqrstuvwxyz").

(** A character with a capital letter replaced by its small letter, as
    the alphabet above pairs them. *)
Definition small_form (c : ascii) : ascii :=
  match find (fun '(capital, _) => Ascii.eqb c capital) case_pairs with
  | Some (_, small) => small
  | None => c
  end.

(** Two characters that are equal, or the capital and the small form of
    one letter. *)
Definition same_letter (a b : ascii) : bool :=
  Ascii.eqb (small_form a) (small_form b).

(** Two strings of the same length that agree up to letter case. *)
Fixpoint same_nocase (s t : string) : Prop :=
  match s, t with
  | EmptyString, EmptyString => True
  | String a s', String b t' => same_letter a b = true /\ same_nocase s' t'
  | _, _ => False
  end.

(** The specification's wording: [q] is a case-insensitive substring
    of [s] when some contiguous part of [s] agrees with [q] up to case. *)
Definition ci_substring (q s : string) : Prop :=
  exists pre mid post, s = pre ++ mid ++ post /\ same_nocase q mid.

End Str.

(** ** The insertion-ordered [dict] with string keys *)

Module Dict.
Section Dict.
Context {V : Type}.

Definition t := list (string * V).

(** [d.get(k)] *)
Fixpoint get (k : string) (d : t) : option V :=
  match d with
  | [] => None
  | (k', v) :: d' => if String.eqb k k' then Some v else get k d'
  end.

(** [k in d] *)
Definition mem (k : string) (d : t) : bool :=
  match get k d with Some _ => true | None => false end.

(** [d[k] = v]: an existing key keeps its place, a new key goes last. *)
Fixpoint set (k : string) (v : V) (d : t) : t :=
  match d with
  | [] => [(k, v)]
  | (k', v') :: d' =>
      if String.eqb k k' then (k', v) :: d' else (k', v') :: set k v d'
  end.

(** [del d[k]] (only used after [k in d] was checked). *)
Fixpoint del (k : string) (d : t) : t :=
  match d with
  | [] => []
  | (k', v') :: d' =>
      if String.eqb k k' then del k d' else (k', v') :: del k d'
  end.

Definition keys (d : t) : list string := map fst d.
Definition values (d : t) : list V := map snd d.

(** A Python dict never holds a key twice. *)
Fixpoint nodup_keys (d : t) : bool :=
  match d with
  | [] => true
  | (k, _) :: d' => (negb (mem k d') && nodup_keys d')%bool
  end.
End Dict.
Arguments t : clear implicits.
End Dict.

(** ** Calendar dates ([datetime.date])

    A date is its proleptic Gregorian ordinal, as [date.toordinal] gives
    it: day 1 is 0001-01-01.  The conversions follow the algorithms of
    the [datetime] module. *)

Module Date.

Definition date := Z.

Definition MINORDINAL : Z := 1.
Definition MAXORDINAL : Z := 3652059.   (* 9999-12-31 *)

Definition in_range (d : date) : bool :=
  (MINORDINAL <=? d) && (d <=? MAXORDINAL).

Definition is_leap (y : Z) : bool :=
  (y mod 4 =? 0) && (negb (y mod 100 =? 0) || (y mod 400 =? 0)).

Definition DAYS_IN_MONTH : list Z :=
  [0; 31; 28; 31; 30; 31; 30; 31; 31; 30; 31; 30; 31].
Definition DAYS_BEFORE_MONTH : list Z :=
  [0; 0; 31; 59; 90; 120; 151; 181; 212; 243; 273; 304; 334].

Definition days_in_month (y m : Z) : Z :=
  if (m =? 2) && is_leap y then 29 else nth (Z.to_nat m) DAYS_IN_MONTH 0.

Definition days_before_year (y : Z) : Z :=
  let p := y - 1 in p * 365 + p / 4 - p / 100 + p / 400.

Definition days_before_month (y m : Z) : Z :=
  nth (Z.to_nat m) DAYS_BEFORE_MONTH 0
  + (if (2 <? m) && is_leap y then 1 else 0).

Definition ymd2ord (y m d : Z) : date :=
  days_before_year y + days_before_month y m + d.

Definition DI400Y : Z := 146097.
Definition DI100Y : Z := 36524.
Definition DI4Y : Z := 1461.

Definition ord2ymd (n : date) : Z * Z * Z :=
  let n := n - 1 in
  let n400 := n / DI400Y in
  let n := n mod DI400Y in
  let n100 := n / DI100Y in
  let n := n mod DI100Y in
  let n4 := n / DI4Y in
  let n := n mod DI4Y in
  let n1 := n / 365 in
  let n := n mod 365 in
  let year := n400 * 400 + 1 + n100 * 100 + n4 * 4 + n1 in
  if (n1 =? 4) || (n100 =? 4) then (year - 1, 12, 31)
  else
    let leapyear := (n1 =? 3) && (negb (n4 =? 24) || (n100 =? 3)) in
    let month := Z.shiftr (n + 50) 5 in
    let preceding :=
      nth (Z.to_nat month) DAYS_BEFORE_MONTH 0
      + (if (2 <? month) && leapyear then 1 else 0) in
    if n <? preceding then
      let month := month - 1 in
      let preceding :=
        preceding
        - (nth (Z.to_nat month) DAYS_IN_MONTH 0
           + (if (month =? 2) && leapyear then 1 else 0)) in
      (year, month, n - preceding + 1)
    else (year, month, n - preceding + 1).

(** [today + datetime.timedelta(days=n)]; [None] is [OverflowError]. *)
Definition add_days (d : date) (n : Z) : option date :=
  if in_range (d + n) then Some (d + n) else None.

Definition digit (n : Z) : ascii := ascii_of_nat (48 + Z.to_nat (n mod 10)).

Definition pad2 (n : Z) : string :=
  String (digit (n / 10)) (String (digit n) EmptyString).

Definition pad4 (n : Z) : string :=
  String (digit (n / 1000)) (String (digit (n / 100)) (pad2 n)).

(** [d.strftime("%Y-%m-%d")], the year written with four digits. *)
Definition strftime_ymd (d : date) : string :=
  let '(y, m, dd) := ord2ymd d in
  pad4 y ++ "-" ++ pad2 m ++ "-" ++ pad2 dd.

Definition digit_val (c : ascii) : option Z :=
  let n := nat_of_ascii c in
  if (Nat.leb 48 n && Nat.leb n 57)%bool then Some (Z.of_nat n - 48) else None.

Fixpoint number (s : string) (acc : Z) : option Z :=
  match s with
  | EmptyString => Some acc
  | String c s' =>
      match digit_val c with
      | Some v => number s' (acc * 10 + v)
      | None => None
      end
  end.

(** [datetime.date.fromisoformat] on the extended form [YYYY-MM-DD];
    [None] is [ValueError]. *)
Definition fromisoformat (s : string) : option date :=
  if negb (Nat.eqb (String.length s) 10) then None
  else if negb (String.eqb (substring 4 1 s) "-"
                && String.eqb (substring 7 1 s) "-") then None
  else
    match number (substring 0 4 s) 0,
          number (substring 5 2 s) 0,
          number (substring 8 2 s) 0 with
    | Some y, Some m, Some d =>
        if (1 <=? y) && (1 <=? m) && (m <=? 12)
           && (1 <=? d) && (d <=? days_in_month y m)
        then Some (ymd2ord y m d) else None
    | _, _, _ => None
    end.

End Date.

(** ** Data model *)

(** [class Book] *)
Module Book.
Record t := make { id : string; title : string; author : string; copies : Z }.

(** [Book.__init__(self, title, author, copies, book_id=None)]; [uuid]
    stands for the value [str(uuid.uuid4())] would give. *)
Definition init (title author : string) (copies : Z)
           (book_id : option string) (uuid : string) : t :=
  {| id := match book_id with Some i => i | None => uuid end;
     title := title; author := author; copies := copies |}.
End Book.

(** The dictionary [Book.to_dict] writes and [Book.from_dict] reads. *)
Module BookDict.
Record t :=
  make { id : string; title : string; author : string; copies : Z }.
End BookDict.

Definition to_dict (b : Book.t) : BookDict.t :=
  {| BookDict.id := Book.id b; BookDict.title := Book.title b;
     BookDict.author := Book.author b; BookDict.copies := Book.copies b |}.

Definition from_dict (data : BookDict.t) : Book.t :=
  Book.init (BookDict.title data) (BookDict.author data)
            (BookDict.copies data) (Some (BookDict.id data)) "".

(** One entry of [borrowed_records]:
    [{'user_id': uid, 'book_id': bid, 'due_date': date}]. *)
Module Loan.
Record t := make { user_id : string; book_id : string; due_date : string }.

(** Equality of two record dictionaries, as [list.remove] tests it. *)
Definition eqb (a b : t) : bool :=
  String.eqb (user_id a) (user_id b)
  && String.eqb (book_id a) (book_id b)
  && String.eqb (due_date a) (due_date b).
End Loan.

(** The JSON document of the data file.  A top-level field may be
    missing ([data.get(key, default)]); documents of another shape are
    outside the model. *)
Record Document := {
  doc_books : option (Dict.t BookDict.t);
  doc_borrowed_records : option (list Loan.t)
}.

Inductive file_state :=
| Absent                      (* os.path.exists is false *)
| Unreadable                  (* json.JSONDecodeError or IOError on reading *)
| Content (doc : Document).

(** What the program prints, without banners, rulers and prompts. *)
Inductive message :=
| InfoLoaded
| ErrLoad
| InfoNoDataFile
| InfoSaved
| ErrSave
| ErrCannotDelete (title : string)
| OkDeleted (title : string)
| ErrBookNotFound (book_id : string)
| InfoNoMatch (query : string)
| SearchHeader (query : string)
| SearchRow (book : Book.t) (available : Z)
| ReportTotals (total_unique_books total_copies total_issued : Z)
| ReportOverdue (overdue_count : Z)
| ErrLimit
| OkBorrowed (title due_date : string)
| ErrAllBorrowed (title : string)
| OkReturned (title : string)
| ErrNoRecord (book_id : string)
| ErrPositiveCopies
| OkAdded (title author : string).

Inductive exn := OverflowError | ValueError | EOFError.

(** The fields of a [LibraryManager] object. *)
Record LibraryManager := {
  books : Dict.t Book.t;
  borrowed_records : list Loan.t
}.

(** The manager together with its surroundings: the data file, whether
    it can be opened for writing, and the output so far. *)
Record World := {
  self : LibraryManager;
  data_file : file_state;
  writable : bool;
  printed : list message
}.

(** The result of a call that may raise. *)
Inductive outcome :=
| Done (w : World)
| Raised (e : exn) (w : World).

Definition world_of (o : outcome) : World :=
  match o with Done w => w | Raised _ w => w end.

Definition print (m : message) (w : World) : World :=
  {| self := self w; data_file := data_file w; writable := writable w;
     printed := (printed w ++ [m])%list |}.

Definition with_self (m : LibraryManager) (w : World) : World :=
  {| self := m; data_file := data_file w; writable := writable w;
     printed := printed w |}.

Definition with_books (bs : Dict.t Book.t) (w : World) : World :=
  with_self {| books := bs; borrowed_records := borrowed_records (self w) |} w.

Definition with_records (rs : list Loan.t) (w : World) : World :=
  with_self {| books := books (self w); borrowed_records := rs |} w.

(** [sum(1 for x in l if p(x))] *)
Fixpoint count_where {A : Type} (p : A -> bool) (l : list A) : Z :=
  match l with
  | [] => 0
  | x :: l' => (if p x then 1 else 0) + count_where p l'
  end.

(** [sum(f(x) for x in l)] *)
Fixpoint sum_of {A : Type} (f : A -> Z) (l : list A) : Z :=
  match l with
  | [] => 0
  | x :: l' => f x + sum_of f l'
  end.

(** [l.remove(x)]: drops the first element equal to [x]. *)
Fixpoint list_remove (x : Loan.t) (l : list Loan.t) : list Loan.t :=
  match l with
  | [] => []
  | y :: l' => if Loan.eqb y x then l' else y :: list_remove x l'
  end.

(** ** LibraryManager *)

Definition initial_books : list Book.t :=
  [ Book.init "The Great Gatsby" "F. Scott Fitzgerald" 3 (Some "1") "";
    Book.init "1984" "George Orwell" 5 (Some "2") "";
    Book.init "Moby Dick" "Herman Melville" 1 (Some "3") "" ].

(** [for book in l: self.books[book.id] = book] *)
Definition store_books (l : list Book.t) (w : World) : World :=
  fold_left (fun w book => with_books (Dict.set (Book.id book) book (books (self w))) w)
            l w.

Definition load_data (w : World) : World :=
  match data_file w with
  | Content data =>
      let book_dicts :=
        Dict.values (match doc_books data with Some d => d | None => [] end) in
      let w := store_books (map from_dict book_dicts) w in
      let w :=
        with_records
          (match doc_borrowed_records data with Some l => l | None => [] end) w in
      print InfoLoaded w
  | Unreadable => print ErrLoad w
  | Absent =>
      let w := print InfoNoDataFile w in
      store_books initial_books w
  end.

(** [LibraryManager.__init__]: empty fields, then [load_data]. *)
Definition LibraryManager_init (w : World) : World :=
  load_data (with_self {| books := []; borrowed_records := [] |} w).

Definition data_to_save (m : LibraryManager) : Document :=
  {| doc_books := Some (map (fun '(book_id, book) => (book_id, to_dict book)) (books m));
     doc_borrowed_records := Some (borrowed_records m) |}.

Definition save_data (w : World) : World :=
  if writable w then
    print InfoSaved
      {| self := self w; data_file := Content (data_to_save (self w));
         writable := writable w; printed := printed w |}
  else print ErrSave w.

Definition add_book (w : World) (title author : string) (copies : Z)
           (uuid : string) : Book.t * World :=
  let new_book := Book.init title author copies None uuid in
  let w := with_books (Dict.set (Book.id new_book) new_book (books (self w))) w in
  let w := save_data w in
  (new_book, w).

Definition get_borrowed_count (m : LibraryManager) (book_id : string) : Z :=
  count_where (fun record => String.eqb (Loan.book_id record) book_id)
              (borrowed_records m).

Definition delete_book (w : World) (book_id : string) : bool * World :=
  match Dict.get book_id (books (self w)) with
  | Some book_to_delete =>
      if 0 <? get_borrowed_count (self w) book_id then
        (false, print (ErrCannotDelete (Book.title book_to_delete)) w)
      else
        let w := with_books (Dict.del book_id (books (self w))) w in
        let w := save_data w in
        (true, print (OkDeleted (Book.title book_to_delete)) w)
  | None => (false, print (ErrBookNotFound book_id) w)
  end.

Definition available (m : LibraryManager) (book : Book.t) : Z :=
  Book.copies book - get_borrowed_count m (Book.id book).

(** [query in book.title.lower() or query in book.author.lower()];
    [lower] stands for [str.lower]. *)
Definition matches (lower : string -> string) (query : string)
           (book : Book.t) : bool :=
  Str.contains query (lower (Book.title book))
  || Str.contains query (lower (Book.author book)).

(** The list [results] that the loop of [search_books] builds;
    [query] is already lowered. *)
Definition search_results (lower : string -> string) (m : LibraryManager)
           (query : string) : list (Book.t * Z) :=
  fold_left
    (fun results book =>
       if matches lower query book
       then (results ++ [(book, available m book)])%list
       else results)
    (Dict.values (books m)) [].

Definition search_books (lower : string -> string) (w : World)
           (query : string) : World :=
  let query := lower query in
  let results := search_results lower (self w) query in
  match results with
  | [] => print (InfoNoMatch query) w
  | _ =>
      fold_left (fun w '(book, avail) => print (SearchRow book avail) w)
                results (print (SearchHeader query) w)
  end.

(** The overdue loop of the report; [None] when a due date does not parse. *)
Fixpoint overdue_loop (today : Date.date) (records : list Loan.t)
         (overdue_count : Z) : option Z :=
  match records with
  | [] => Some overdue_count
  | record :: rest =>
      match Date.fromisoformat (Loan.due_date record) with
      | Some due_date =>
          overdue_loop today rest
            (if due_date <? today then overdue_count + 1 else overdue_count)
      | None => None
      end
  end.

Definition generate_simple_report (w : World) (today : Date.date) : outcome :=
  let total_unique_books := Z.of_nat (List.length (books (self w))) in
  let total_copies := sum_of Book.copies (Dict.values (books (self w))) in
  let total_issued := Z.of_nat (List.length (borrowed_records (self w))) in
  let w := print (ReportTotals total_unique_books total_copies total_issued) w in
  match overdue_loop today (borrowed_records (self w)) 0 with
  | Some overdue_count => Done (print (ReportOverdue overdue_count) w)
  | None => Raised ValueError w
  end.

Definition user_loans (m : LibraryManager) (user_id : string) : Z :=
  count_where (fun r => String.eqb (Loan.user_id r) user_id) (borrowed_records m).

Definition borrow_book (w : World) (book_id : string)
           (user_id : option string) (today : Date.date) : outcome :=
  match user_id with
  | None => Done w
  | Some user_id =>
      if 3 <=? user_loans (self w) user_id then Done (print ErrLimit w)
      else
        match Dict.get book_id (books (self w)) with
        | None => Done (print (ErrBookNotFound book_id) w)
        | Some book_to_borrow =>
            let available_copies :=
              Book.copies book_to_borrow - get_borrowed_count (self w) book_id in
            if 0 <? available_copies then
              match Date.add_days today 7 with
              | None => Raised OverflowError w
              | Some due =>
                  let due_date := Date.strftime_ymd due in
                  let new_record :=
                    {| Loan.user_id := user_id; Loan.book_id := book_id;
                       Loan.due_date := due_date |} in
                  let w :=
                    with_records (borrowed_records (self w) ++ [new_record])%list w in
                  let w := save_data w in
                  Done (print (OkBorrowed (Book.title book_to_borrow) due_date) w)
              end
            else Done (print (ErrAllBorrowed (Book.title book_to_borrow)) w)
        end
  end.

Definition loan_of (user_id book_id : string) (r : Loan.t) : bool :=
  String.eqb (Loan.user_id r) user_id && String.eqb (Loan.book_id r) book_id.

Definition return_book (w : World) (book_id : string)
           (user_id : option string) : World :=
  match user_id with
  | None => w
  | Some user_id =>
      match find (loan_of user_id book_id) (borrowed_records (self w)) with
      | Some record_to_remove =>
          let w :=
            with_records
              (list_remove record_to_remove (borrowed_records (self w))) w in
          let w := save_data w in
          let title :=
            match Dict.get book_id (books (self w)) with
            | Some book => Book.title book
            | None => "Unknown Book"
            end in
          print (OkReturned title) w
      | None => print (ErrNoRecord book_id) w
      end
  end.

(** ** The staff menu that adds a book *)

(** The [while True] loop of [staff_add_book_menu].  Each entry is one
    line typed at the prompt, already through [int()]: [None] when
    [int()] raised [ValueError].  When the input ends, [input()] raises
    [EOFError]: the result is [None]. *)
Fixpoint read_copies (entries : list (option Z)) (w : World)
  : option Z * World :=
  match entries with
  | [] => (None, w)
  | Some copies :: rest =>
      if copies <=? 0 then read_copies rest (print ErrPositiveCopies w)
      else (Some copies, w)
  | None :: rest => read_copies rest (print ErrPositiveCopies w)
  end.

Definition staff_add_book_menu (w : World) (title author : string)
           (entries : list (option Z)) (uuid : string) : outcome :=
  match read_copies entries w with
  | (Some copies, w) =>
      let '(_, w) := add_book w title author copies uuid in
      Done (print (OkAdded title author) w)
  | (None, w) => Raised EOFError w
  end.

(** ** Sequences of operations *)

Inductive operation :=
| AddBook (title author : string) (copies : Z) (uuid : string)
| DeleteBook (book_id : string)
| BorrowBook (book_id : string) (user_id : option string) (today : Date.date)
| ReturnBook (book_id : string) (user_id : option string)
| SearchBooks (query : string)
| GenerateReport (today : Date.date).

(** One operation; [lower] is the [str.lower] of the library, which only
    the search uses. *)
Definition run (lower : string -> string) (w : World) (op : operation)
  : World :=
  match op with
  | AddBook title author copies uuid => snd (add_book w title author copies uuid)
  | DeleteBook book_id => snd (delete_book w book_id)
  | BorrowBook book_id user_id today => world_of (borrow_book w book_id user_id today)
  | ReturnBook book_id user_id => return_book w book_id user_id
  | SearchBooks query => search_books lower w query
  | GenerateReport today => world_of (generate_simple_report w today)
  end.

Definition run_all (lower : string -> string) (ops : list operation)
           (w : World) : World :=
  fold_left (run lower) ops w.

(** What the callers guarantee of an operation in the state it runs in:
    a copy count is not negative (the [Book] data model; the staff menu
    even insists on a positive one) and [uuid.uuid4()] is a new id. *)
Definition admissible (w : World) (op : operation) : bool :=
  match op with
  | AddBook _ _ copies uuid =>
      (0 <=? copies) && negb (Dict.mem uuid (books (self w)))
  | _ => true
  end.

Fixpoint admissible_all (lower : string -> string) (ops : list operation)
         (w : World) : bool :=
  match ops with
  | [] => true
  | op :: rest =>
      admissible w op && admissible_all lower rest (run lower w op)
  end.

(** The store a first start builds: no data file on disk. *)
Definition seeded (can_write : bool) : World :=
  LibraryManager_init
    {| self := {| books := []; borrowed_records := [] |};
       data_file := Absent; writable := can_write; printed := [] |}.

(** ** Representation invariants *)

(** Every key of [books] is the id of the book stored under it. *)
Definition keyed_by_id (d : Dict.t Book.t) : bool :=
  forallb (fun '(k, b) => String.eqb k (Book.id b)) d.

Definition wf_books (d : Dict.t Book.t) : bool :=
  Dict.nodup_keys d && keyed_by_id d.

(** No book has more loans than copies. *)
Definition within_copies (m : LibraryManager) : bool :=
  forallb (fun '(k, b) => get_borrowed_count m k <=? Book.copies b) (books m).

(** Every loan is of a book of the catalog. *)
Definition loans_in_catalog (m : LibraryManager) : bool :=
  forallb (fun r => Dict.mem (Loan.book_id r) (books m)) (borrowed_records m).

Definition store_ok (m : LibraryManager) : bool :=
  wf_books (books m) && within_copies m && loans_in_catalog m.

(** ** A sample session

    The scenario of the specification: on a first start, a book with two
    copies is added and the same user borrows it three times. *)

Definition a_day : Date.date := Date.ymd2ord 2026 11 4.

Definition dune_ops : list operation :=
  [ AddBook "Dune" "Herbert" 2 "b-dune";
    BorrowBook "b-dune" (Some "u1") a_day;
    BorrowBook "b-dune" (Some "u1") a_day;
    BorrowBook "b-dune" (Some "u1") a_day ].

Definition dune : Book.t := Book.make "b-dune" "Dune" "Herbert" 2.

Definition no_file : World :=
  {| self := {| books := []; borrowed_records := [] |};
     data_file := Absent; writable := true; printed := [] |}.

(** ** Checks run by computation *)

(** [f] holds on the [2 ^ n] integers from [lo] on. *)
Fixpoint holds_from (n : nat) (lo : Z) (f : Z -> bool) : bool :=
  match n with
  | O => f lo
  | S n' => holds_from n' lo f && holds_from n' (lo + 2 ^ Z.of_nat n') f
  end.

(** Within the first 400-year cycle, [ord2ymd] gives a date of the
    calendar that [ymd2ord] takes back to the ordinal. *)
Definition cycle_day_ok (d : Z) : bool :=
  negb ((1 <=? d) && (d <=? Date.DI400Y))
  || (let '(y, m, dd) := Date.ord2ymd d in
      (1 <=? y) && (y <=? 400) && ((145731 <? d) || (y <=? 399))
      && (1 <=? m) && (m <=? 12)
      && (1 <=? dd) && (dd <=? Date.days_in_month y m)
      && (Date.ymd2ord y m dd =? d)).

(** The 256 characters. *)
Definition all_ascii : list ascii := map ascii_of_nat (seq 0 256).

(** On every character, the small form by the alphabet is the ASCII
    lowering. *)
Definition letters_agree : bool :=
  forallb (fun c => Ascii.eqb (Str.small_form c) (Str.ascii_lower_char c))
          all_ascii.

(** [pad2] and [pad4] are read back by [number]. *)
Definition pad_ok (n : Z) : bool :=
  negb ((0 <=? n) && (n <=? 9999))
  || (match Date.number (Date.pad4 n) 0 with Some v => v =? n | None => false end
      && (negb (n <=? 99)
          || match Date.number (Date.pad2 n) 0 with
             | Some v => v =? n | None => false end)).

(** Every due date of the loan records is one [fromisoformat] reads. *)
Definition due_dates_parse (m : LibraryManager) : bool :=
  forallb (fun r => match Date.fromisoformat (Loan.due_date r) with
                    | Some _ => true | None => false end)
          (borrowed_records m).

(** ** The views of the manager

    A view changes nothing; it is modelled by the lines it prints
    (banners and rulers left out). *)

(** One entry of the list [available_books] of [view_available_books]. *)
Module AvailableEntry.
Record t := make {
  id : string; title : string; author : string; available_copies : Z
}.
End AvailableEntry.

Inductive line :=
| InfoCatalogEmpty
| CatalogRow (book_id title author : string) (copies available : Z)
| InfoNoneAvailable
| AvailableRow (entry : AvailableEntry.t)
| InfoNoBooksBorrowed
| MyBookRow (book_id title due_date : string)
| OkWelcomeBack (username : string)
| ErrStaffLogin
| ErrUsernameExists
| OkStaffRegistered (username : string)
| OkWelcome (username : string)
| ErrCustomerLogin
| OkCustomerRegistered (username : string)
| ErrInvalidBookId.

Definition display_book_database (m : LibraryManager) : list line :=
  match books m with
  | [] => [InfoCatalogEmpty]
  | _ =>
      map (fun '(book_id, book) =>
             let borrowed_count := get_borrowed_count m book_id in
             let available := Book.copies book - borrowed_count in
             CatalogRow book_id (Book.title book) (Book.author book)
                        (Book.copies book) available)
          (books m)
  end.

(** The list [available_books] that [view_available_books] builds. *)
Definition available_books (m : LibraryManager) : list AvailableEntry.t :=
  fold_left
    (fun available_books book =>
       let borrowed_count := get_borrowed_count m (Book.id book) in
       let available_copies := Book.copies book - borrowed_count in
       if 0 <? available_copies then
         (available_books
            ++ [ {| AvailableEntry.id := Book.id book;
                    AvailableEntry.title := Book.title book;
                    AvailableEntry.author := Book.author book;
                    AvailableEntry.available_copies := available_copies |} ])%list
       else available_books)
    (Dict.values (books m)) [].

Definition view_available_books (m : LibraryManager) : list line :=
  match available_books m with
  | [] => [InfoNoneAvailable]
  | entries => map AvailableRow entries
  end.

(** The list [my_borrowed_records] of [view_my_books]. *)
Definition my_borrowed_records (m : LibraryManager) (user_id : string)
  : list Loan.t :=
  filter (fun r => String.eqb (Loan.user_id r) user_id) (borrowed_records m).

Definition view_my_books (m : LibraryManager) (user_id : option string)
  : list line :=
  match user_id with
  | None => []
  | Some user_id =>
      match my_borrowed_records m user_id with
      | [] => [InfoNoBooksBorrowed]
      | records =>
          flat_map
            (fun record =>
               match Dict.get (Loan.book_id record) (books m) with
               | Some book =>
                   [MyBookRow (Book.id book) (Book.title book)
                              (Loan.due_date record)]
               | None => []
               end)
            records
      end
  end.

(** ** Users and the session *)

(** One entry of the global list [USERS]. *)
Module User.
Record t := make {
  id : string; username : string; password : string; role : string
}.
End User.

(** The program as a whole: the library with its file, the globals
    [USERS] and [CURRENT_USER], and the lines the views, the login
    functions and the menus print.  (The manager's own messages stay in
    [printed]; the order between the two outputs is not kept.) *)
Record App := {
  lib : World;
  USERS : list User.t;
  CURRENT_USER : option User.t;
  screen : list line
}.

Definition say (l : list line) (a : App) : App :=
  {| lib := lib a; USERS := USERS a; CURRENT_USER := CURRENT_USER a;
     screen := (screen a ++ l)%list |}.

Definition with_lib (w : World) (a : App) : App :=
  {| lib := w; USERS := USERS a; CURRENT_USER := CURRENT_USER a;
     screen := screen a |}.

Definition login_as (user : User.t) (a : App) : App :=
  {| lib := lib a; USERS := USERS a; CURRENT_USER := Some user;
     screen := screen a |}.

(** The list [USERS] at the start; the two ids come from [uuid.uuid4()]. *)
Definition initial_USERS (uuid_admin uuid_jane : string) : list User.t :=
  [ User.make uuid_admin "admin" "123" "staff";
    User.make uuid_jane "jane_doe" "456" "customer" ].

Definition find_user_by_username (users : list User.t) (username : string)
  : option User.t :=
  find (fun user => String.eqb (User.username user) username) users.

Definition get_user_id (a : App) : option string :=
  match CURRENT_USER a with
  | Some user => Some (User.id user)
  | None => None
  end.

Definition authenticate_staff (a : App) (username password : string)
  : bool * App :=
  match find_user_by_username (USERS a) username with
  | Some user =>
      if String.eqb (User.password user) password
         && String.eqb (User.role user) "staff"
      then (true, say [OkWelcomeBack username] (login_as user a))
      else (false, say [ErrStaffLogin] a)
  | None => (false, say [ErrStaffLogin] a)
  end.

Definition customer_login (a : App) (username password : string)
  : bool * App :=
  match find_user_by_username (USERS a) username with
  | Some user =>
      if String.eqb (User.password user) password
         && String.eqb (User.role user) "customer"
      then (true, say [OkWelcome username] (login_as user a))
      else (false, say [ErrCustomerLogin] a)
  | None => (false, say [ErrCustomerLogin] a)
  end.

(** The result of a function that reads input: it may end with
    [EOFError] when no line is left, or with what the manager raised. *)
Inductive ui_outcome :=
| UiDone (a : App)
| UiRaised (e : exn) (a : App).

Definition app_of (o : ui_outcome) : App :=
  match o with UiDone a => a | UiRaised _ a => a end.

(** The [while True] loop that asks for a user name not yet taken. *)
Fixpoint read_new_username (entries : list string) (a : App)
  : option string * App :=
  match entries with
  | [] => (None, a)
  | username :: rest =>
      match find_user_by_username (USERS a) username with
      | Some _ => read_new_username rest (say [ErrUsernameExists] a)
      | None => (Some username, a)
      end
  end.

(** [USERS.append(new_user)] followed by [CURRENT_USER = new_user]. *)
Definition append_user (new_user : User.t) (a : App) : App :=
  {| lib := lib a; USERS := (USERS a ++ [new_user])%list;
     CURRENT_USER := Some new_user; screen := screen a |}.

(** [entries] are the names typed, [password] the password typed after
    them, [uuid] the value of [str(uuid.uuid4())]. *)
Definition register_staff (a : App) (entries : list string)
           (password uuid : string) : ui_outcome :=
  match read_new_username entries a with
  | (Some username, a) =>
      let new_staff :=
        {| User.id := uuid; User.username := username;
           User.password := password; User.role := "staff" |} in
      UiDone (say [OkStaffRegistered username] (append_user new_staff a))
  | (None, a) => UiRaised EOFError a
  end.

Definition customer_register (a : App) (entries : list string)
           (password uuid : string) : ui_outcome :=
  match read_new_username entries a with
  | (Some username, a) =>
      let new_customer :=
        {| User.id := uuid; User.username := username;
           User.password := password; User.role := "customer" |} in
      UiDone (say [OkCustomerRegistered username] (append_user new_customer a))
  | (None, a) => UiRaised EOFError a
  end.

(** Choice "Logout" of the two main menus: save, then forget the user. *)
Definition logout (a : App) : App :=
  {| lib := save_data (lib a); USERS := USERS a; CURRENT_USER := None;
     screen := screen a |}.

(** ** The menus around one manager call *)

(** [s.lower() == 'q']: of all strings only [q] and [Q] are lowered to
    [q], so the ASCII lowering decides it. *)
Definition is_q (s : string) : bool := String.eqb (Str.ascii_lower s) "q".

Definition lift (o : outcome) (a : App) : ui_outcome :=
  match o with
  | Done w => UiDone (with_lib w a)
  | Raised e w => UiRaised e (with_lib w a)
  end.

(** The prompt loop of [customer_borrow_menu]. *)
Fixpoint borrow_prompt (entries : list string) (user_id : string)
         (today : Date.date) (a : App) : ui_outcome :=
  match entries with
  | [] => UiRaised EOFError a
  | book_id_str :: rest =>
      if is_q book_id_str then UiDone a
      else if Dict.mem book_id_str (books (self (lib a))) then
        lift (borrow_book (lib a) book_id_str (Some user_id) today) a
      else borrow_prompt rest user_id today (say [ErrInvalidBookId] a)
  end.

(** [if not user_id]: nobody is logged in, or the id is the empty string. *)
Definition no_user (user_id : option string) : bool :=
  match user_id with
  | None => true
  | Some s => String.eqb s ""
  end.

Definition customer_borrow_menu (a : App) (entries : list string)
           (today : Date.date) : ui_outcome :=
  let a := say (view_available_books (self (lib a))) a in
  let user_id := get_user_id a in
  if no_user user_id then UiDone a
  else
    match user_id with
    | Some user_id => borrow_prompt entries user_id today a
    | None => UiDone a
    end.

(** The prompt loop of [customer_return_menu]. *)
Fixpoint return_prompt (entries : list string) (user_id : string) (a : App)
  : ui_outcome :=
  match entries with
  | [] => UiRaised EOFError a
  | book_id_str :: rest =>
      if is_q book_id_str then UiDone a
      else if Dict.mem book_id_str (books (self (lib a))) then
        UiDone (with_lib (return_book (lib a) book_id_str (Some user_id)) a)
      else return_prompt rest user_id (say [ErrInvalidBookId] a)
  end.

Definition customer_return_menu (a : App) (entries : list string)
  : ui_outcome :=
  let user_id := get_user_id a in
  let a := say (view_my_books (self (lib a)) user_id) a in
  if no_user user_id then UiDone a
  else
    match user_id with
    | Some user_id =>
        match my_borrowed_records (self (lib a)) user_id with
        | [] => UiDone a
        | _ => return_prompt entries user_id a
        end
    | None => UiDone a
    end.

(** The prompt loop of [staff_delete_book_menu]. *)
Fixpoint delete_prompt (entries : list string) (a : App) : ui_outcome :=
  match entries with
  | [] => UiRaised EOFError a
  | book_id_str :: rest =>
      if is_q book_id_str then UiDone a
      else if Dict.mem book_id_str (books (self (lib a))) then
        UiDone (with_lib (snd (delete_book (lib a) book_id_str)) a)
      else delete_prompt rest (say [ErrInvalidBookId] a)
  end.

Definition staff_delete_book_menu (a : App) (entries : list string)
  : ui_outcome :=
  let a := say (display_book_database (self (lib a))) a in
  match books (self (lib a)) with
  | [] => UiDone a
  | _ => delete_prompt entries a
  end.

(** ** Sequences of logins and registrations *)

Inductive auth_operation :=
| AuthenticateStaff (username password : string)
| CustomerLogin (username password : string)
| RegisterStaff (entries : list string) (password uuid : string)
| CustomerRegister (entries : list string) (password uuid : string)
| Logout.

Definition run_auth (a : App) (op : auth_operation) : App :=
  match op with
  | AuthenticateStaff username password =>
      snd (authenticate_staff a username password)
  | CustomerLogin username password => snd (customer_login a username password)
  | RegisterStaff entries password uuid =>
      app_of (register_staff a entries password uuid)
  | CustomerRegister entries password uuid =>
      app_of (customer_register a entries password uuid)
  | Logout => logout a
  end.

(** The program at its start, on a first run. *)
Definition start (uuid_admin uuid_jane : string) : App :=
  {| lib := seeded true; USERS := initial_USERS uuid_admin uuid_jane;
     CURRENT_USER := None; screen := [] |}.

(** No user name is in the list twice. *)
Fixpoint usernames_distinct (users : list User.t) : bool :=
  match users with
  | [] => true
  | user :: rest =>
      negb (existsb (fun u => String.eqb (User.username u) (User.username user)) rest)
      && usernames_distinct rest
  end.

(** ** Sample inputs *)

Definition gatsby : Book.t :=
  Book.make "1" "The Great Gatsby" "F. Scott Fitzgerald" 3.

Definition sample_app : App := start "id-admin" "id-jane".

Definition jane : User.t := User.make "id-jane" "jane_doe" "456" "customer".

Definition jane_app : App := login_as jane sample_app.

(** A book entered with a negative number of copies. *)
Definition negative_book : Book.t := Book.make "b-neg" "X" "Y" (-1).

Definition negative_store : World :=
  snd (add_book (seeded true) "X" "Y" (-1) "b-neg").

(** Another process: a world with its own manager and output, of which
    only the data file is that of [w]. *)
Definition elsewhere (w : World) : World :=
  {| self := {| books := [("b-neg", negative_book)];
                borrowed_records := [Loan.make "nobody" "b-neg" "no date"] |};
     data_file := data_file w; writable := false; printed := [ErrLoad] |}.

(** [str.lower] on two Greek strings and on ASCII text.  In Python
    ['ΑΣ'.lower()] is ['ας'], with the final form of the small sigma
    after a letter at the end of a word, and ['Σ'.lower()] is ['σ']. *)
Definition sigma_lower (s : string) : string :=
  if String.eqb s "ΑΣ" then "ας"
  else if String.eqb s "Σ" then "σ"
  else Str.ascii_lower s.

Definition greek_book : Book.t := Book.make "b-greek" "ΑΣ" "Anon" 1.

Definition greek_store : World :=
  snd (add_book (seeded true) "ΑΣ" "Anon" 1 "b-greek").

(** * Properties *)

(** ** The dictionary *)

Module DictFacts.
Section DictFacts.
Context {V : Type}.
Implicit Types (d : Dict.t V) (k : string) (v : V).

Lemma get_set_same k v d : Dict.get k (Dict.set k v d) = Some v.
Proof.
  induction d as [|[k' v'] d IH]; simpl.
  - now rewrite String.eqb_refl.
  - destruct (String.eqb k k') eqn:E; simpl; rewrite E; auto.
Qed.

Lemma get_set_other k k' v d :
  k' <> k -> Dict.get k' (Dict.set k v d) = Dict.get k' d.
Proof.
  intros Hne. induction d as [|[k1 v1] d IH]; simpl.
  - apply String.eqb_neq in Hne. now rewrite Hne.
  - destruct (String.eqb k k1) eqn:E; simpl.
    + apply String.eqb_eq in E. subst k1.
      apply String.eqb_neq in Hne. now rewrite Hne.
    + now rewrite IH.
Qed.

Lemma get_del_same k d : Dict.get k (Dict.del k d) = None.
Proof.
  induction d as [|[k' v'] d IH]; simpl; auto.
  destruct (String.eqb k k') eqn:E; simpl; auto. now rewrite E.
Qed.

Lemma get_del_other k k' d :
  k' <> k -> Dict.get k' (Dict.del k d) = Dict.get k' d.
Proof.
  intros Hne. induction d as [|[k1 v1] d IH]; simpl; auto.
  destruct (String.eqb k k1) eqn:E; simpl.
  - apply String.eqb_eq in E. subst k1.
    apply String.eqb_neq in Hne. now rewrite Hne.
  - now rewrite IH.
Qed.

Lemma del_filter k d :
  Dict.del k d = filter (fun e => negb (String.eqb k (fst e))) d.
Proof.
  induction d as [|[k' v'] d IH]; simpl; auto.
  destruct (String.eqb k k'); simpl; now rewrite IH.
Qed.

Lemma mem_set k k' v d :
  Dict.mem k' (Dict.set k v d) = String.eqb k' k || Dict.mem k' d.
Proof.
  unfold Dict.mem. destruct (String.eqb k' k) eqn:E.
  - apply String.eqb_eq in E. subst. now rewrite get_set_same.
  - apply String.eqb_neq in E. now rewrite get_set_other.
Qed.

Lemma mem_del k k' d :
  Dict.mem k' (Dict.del k d) = negb (String.eqb k' k) && Dict.mem k' d.
Proof.
  unfold Dict.mem. destruct (String.eqb k' k) eqn:E.
  - apply String.eqb_eq in E. subst. now rewrite get_del_same.
  - apply String.eqb_neq in E. now rewrite get_del_other.
Qed.

Lemma set_fresh k v d :
  Dict.mem k d = false -> Dict.set k v d = (d ++ [(k, v)])%list.
Proof.
  unfold Dict.mem. induction d as [|[k' v'] d IH]; simpl; auto.
  destruct (String.eqb k k'); [discriminate|].
  intros H. now rewrite IH.
Qed.

Lemma mem_app k d1 d2 :
  Dict.mem k (d1 ++ d2)%list = Dict.mem k d1 || Dict.mem k d2.
Proof.
  unfold Dict.mem. induction d1 as [|[k' v'] d1 IH]; simpl; auto.
  destruct (String.eqb k k'); auto.
Qed.

Lemma nodup_keys_app_one k v d :
  Dict.nodup_keys d = true -> Dict.mem k d = false ->
  Dict.nodup_keys (d ++ [(k, v)])%list = true.
Proof.
  induction d as [|[k' v'] d IH]; simpl; auto.
  intros Hd Hk. apply andb_true_iff in Hd as [Hk' Hd].
  unfold Dict.mem in Hk. simpl in Hk.
  destruct (String.eqb k k') eqn:E; [discriminate|].
  rewrite mem_app, IH by assumption.
  apply negb_true_iff in Hk'. rewrite Hk'. simpl.
  unfold Dict.mem at 1. simpl. rewrite String.eqb_sym, E. reflexivity.
Qed.

Lemma nodup_keys_del k d :
  Dict.nodup_keys d = true -> Dict.nodup_keys (Dict.del k d) = true.
Proof.
  induction d as [|[k' v'] d IH]; simpl; auto.
  intros Hd. apply andb_true_iff in Hd as [Hk' Hd].
  destruct (String.eqb k k'); auto.
  simpl. rewrite IH by assumption. rewrite mem_del.
  apply negb_true_iff in Hk'. rewrite Hk'.
  now rewrite andb_false_r.
Qed.

(** In a dict, an entry is what [get] finds under its key. *)
Lemma get_in k v d :
  Dict.nodup_keys d = true -> In (k, v) d -> Dict.get k d = Some v.
Proof.
  induction d as [|[k' v'] d IH]; simpl; [tauto|].
  intros Hd [Heq | Hin].
  - inversion Heq; subst. now rewrite String.eqb_refl.
  - apply andb_true_iff in Hd as [Hk' Hd].
    destruct (String.eqb k k') eqn:E.
    + apply String.eqb_eq in E. subst k'.
      apply negb_true_iff in Hk'. unfold Dict.mem in Hk'.
      rewrite (IH Hd Hin) in Hk'. discriminate.
    + auto.
Qed.

Lemma in_get k v d : Dict.get k d = Some v -> In (k, v) d.
Proof.
  induction d as [|[k' v'] d IH]; simpl; [discriminate|].
  destruct (String.eqb k k') eqn:E.
  - apply String.eqb_eq in E. subst. intros H. inversion H. now left.
  - auto.
Qed.

Lemma forallb_set (P : string * V -> bool) k v d :
  forallb P d = true -> P (k, v) = true ->
  forallb P (Dict.set k v d) = true.
Proof.
  intros Hd Hp. induction d as [|[k' v'] d IH]; simpl in *.
  - now rewrite Hp.
  - apply andb_true_iff in Hd as [H1 H2].
    destruct (String.eqb k k') eqn:E; simpl.
    + apply String.eqb_eq in E. subst k'. now rewrite Hp, H2.
    + now rewrite H1, IH.
Qed.

Lemma forallb_del (P : string * V -> bool) k d :
  forallb P d = true -> forallb P (Dict.del k d) = true.
Proof.
  intros Hd. induction d as [|[k' v'] d IH]; simpl in *; auto.
  apply andb_true_iff in Hd as [H1 H2].
  destruct (String.eqb k k'); simpl; auto. now rewrite H1, IH.
Qed.
End DictFacts.
End DictFacts.

(** ** Strings *)

Module StrFacts.

Lemma in_all_ascii a : In a all_ascii.
Proof.
  unfold all_ascii. rewrite <- (ascii_nat_embedding a).
  apply in_map. apply in_seq.
  pose proof (nat_ascii_bounded a). lia.
Qed.

Lemma letters_checked : letters_agree = true.
Proof. vm_compute. reflexivity. Qed.

Lemma small_form_lower c : Str.small_form c = Str.ascii_lower_char c.
Proof.
  pose proof letters_checked as H. unfold letters_agree in H.
  rewrite forallb_forall in H. specialize (H c (in_all_ascii c)).
  now apply Ascii.eqb_eq in H.
Qed.

(** Two characters are the same letter exactly when the ASCII lowering
    sends them to the same character. *)
Lemma same_letter_lower a b :
  Str.same_letter a b = true <-> Str.ascii_lower_char a = Str.ascii_lower_char b.
Proof.
  unfold Str.same_letter. rewrite Ascii.eqb_eq. now rewrite !small_form_lower.
Qed.

(** A lowered query opens a lowered string exactly when it agrees, up to
    letter case, with the part the string starts with. *)
Lemma prefix_lower q : forall s,
  String.prefix (Str.ascii_lower q) (Str.ascii_lower s) = true <->
  exists mid post, s = mid ++ post /\ Str.same_nocase q mid.
Proof.
  induction q as [|a q IH]; intros s.
  - split.
    + intros _. exists "", s. simpl. auto.
    + intros _. now destruct s.
  - destruct s as [|b s]; simpl.
    + split; [discriminate|].
      intros (mid & post & Heq & Hsame).
      destruct mid; simpl in *; [contradiction | discriminate].
    + destruct (ascii_dec (Str.ascii_lower_char a) (Str.ascii_lower_char b))
        as [E|E].
      * rewrite IH. split.
        -- intros (mid & post & -> & Hsame).
           exists (String b mid), post. simpl.
           split; [reflexivity|]. split; [now apply same_letter_lower | assumption].
        -- intros (mid & post & Heq & Hsame).
           destruct mid as [|c mid]; simpl in *; [contradiction|].
           inversion Heq; subst. destruct Hsame as [_ Hsame]. eauto.
      * split; [discriminate|].
        intros (mid & post & Heq & Hsame).
        destruct mid as [|c mid]; simpl in *; [contradiction|].
        inversion Heq; subst. destruct Hsame as [Hc _].
        apply same_letter_lower in Hc. contradiction.
Qed.

Lemma ci_substring_here_or_later q s :
  Str.ci_substring q s <->
  (exists mid post, s = mid ++ post /\ Str.same_nocase q mid)
  \/ (exists b s', s = String b s' /\ Str.ci_substring q s').
Proof.
  unfold Str.ci_substring. split.
  - intros (pre & mid & post & Heq & Hsame).
    destruct pre as [|b pre]; simpl in Heq.
    + left. eauto.
    + right. exists b, (pre ++ mid ++ post). split; [assumption|]. eauto.
  - intros [(mid & post & Heq & Hsame) | (b & s' & -> & pre & mid & post & -> & Hsame)].
    + exists "", mid, post. auto.
    + exists (String b pre), mid, post. auto.
Qed.

Lemma contains_nil sub : Str.contains sub "" = String.prefix sub "".
Proof. simpl. apply orb_false_r. Qed.

Lemma contains_cons sub c s :
  Str.contains sub (String c s)
  = String.prefix sub (String c s) || Str.contains sub s.
Proof. reflexivity. Qed.

(** On ASCII text, [lower(q) in lower(s)] is the case-insensitive
    substring test. *)
Lemma contains_lower q : forall s,
  Str.contains (Str.ascii_lower q) (Str.ascii_lower s) = true
  <-> Str.ci_substring q s.
Proof.
  induction s as [|b s IH]; rewrite ci_substring_here_or_later.
  - change (Str.ascii_lower "") with "". rewrite contains_nil.
    change "" with (Str.ascii_lower "") at 1. rewrite prefix_lower.
    split; [auto|].
    intros [H | (b & s' & Heq & _)]; [assumption | discriminate].
  - change (Str.ascii_lower (String b s))
      with (String (Str.ascii_lower_char b) (Str.ascii_lower s)).
    rewrite contains_cons, orb_true_iff.
    change (String (Str.ascii_lower_char b) (Str.ascii_lower s))
      with (Str.ascii_lower (String b s)).
    rewrite prefix_lower, IH. split.
    + intros [H | H]; [now left | right; eauto].
    + intros [H | (b' & s' & Heq & H)]; [now left|].
      inversion Heq; subst. now right.
Qed.

(** A string is contained in every string it is written in: a literal
    substring is a case-insensitive one. *)
Lemma same_nocase_refl s : Str.same_nocase s s.
Proof.
  induction s as [|c s IH]; simpl; auto.
  split; [|assumption]. unfold Str.same_letter. apply Ascii.eqb_refl.
Qed.

End StrFacts.

(** ** The library

    From here on [lower] is the [str.lower] of the Python library. *)

Section Library.
Variable lower : string -> string.

(** ** Counting and removing *)

Lemma count_where_app {A : Type} (p : A -> bool) (l1 l2 : list A) :
  count_where p (l1 ++ l2)%list = count_where p l1 + count_where p l2.
Proof. induction l1 as [|x l1 IH]; simpl; [reflexivity | rewrite IH; lia]. Qed.

Lemma count_where_nonneg {A : Type} (p : A -> bool) (l : list A) :
  0 <= count_where p l.
Proof. induction l as [|x l IH]; simpl; [lia | destruct (p x); lia]. Qed.

Lemma count_where_none {A : Type} (p : A -> bool) (l : list A) :
  (forall x, In x l -> p x = false) -> count_where p l = 0.
Proof.
  induction l as [|x l IH]; simpl; intros H; [reflexivity|].
  rewrite (H x) by now left. rewrite IH; auto.
Qed.

Lemma count_where_zero {A : Type} (p : A -> bool) (l : list A) :
  count_where p l <= 0 -> forall x, In x l -> p x = false.
Proof.
  induction l as [|y l IH]; simpl; intros H x Hin; [tauto|].
  pose proof (count_where_nonneg p l).
  destruct Hin as [-> | Hin].
  - destruct (p x); [lia | reflexivity].
  - apply IH; [destruct (p y); lia | assumption].
Qed.

Lemma Loan_eqb_eq (a b : Loan.t) : Loan.eqb a b = true <-> a = b.
Proof.
  unfold Loan.eqb. rewrite !andb_true_iff, !String.eqb_eq.
  destruct a, b; simpl. split.
  - intros [[-> ->] ->]. reflexivity.
  - intros H. inversion H. auto.
Qed.

(** [find] followed by [list.remove] takes out the first match, and
    nothing else. *)
Lemma find_then_remove (p : Loan.t -> bool) (l : list Loan.t) (r : Loan.t) :
  find p l = Some r ->
  exists l1 l2,
    l = (l1 ++ r :: l2)%list /\ (forall x, In x l1 -> p x = false)
    /\ p r = true /\ list_remove r l = (l1 ++ l2)%list.
Proof.
  induction l as [|y l IH]; simpl; [discriminate|].
  destruct (p y) eqn:Hy.
  - intros H. inversion H; subst y.
    exists [], l. simpl. repeat split; auto; try tauto.
    assert (E : Loan.eqb r r = true) by now apply Loan_eqb_eq.
    now rewrite E.
  - intros H. destruct (IH H) as (l1 & l2 & -> & Hl1 & Hr & Hrm).
    exists (y :: l1), l2. simpl. repeat split; auto.
    + intros x [<- | Hx]; auto.
    + destruct (Loan.eqb y r) eqn:E.
      * apply Loan_eqb_eq in E. congruence.
      * now rewrite Hrm.
Qed.

Lemma find_none_all {A : Type} (p : A -> bool) (l : list A) :
  find p l = None -> forall x, In x l -> p x = false.
Proof. intros H x Hx. exact (find_none p l H x Hx). Qed.

(** ** What the calls leave alone *)

Lemma self_print m w : self (print m w) = self w.
Proof. reflexivity. Qed.

Lemma self_save_data w : self (save_data w) = self w.
Proof. unfold save_data. now destruct (writable w). Qed.

Lemma writable_save_data w : writable (save_data w) = writable w.
Proof. unfold save_data. destruct (writable w) eqn:E; simpl; auto. Qed.

Lemma data_file_save_data w :
  data_file (save_data w)
  = if writable w then Content (data_to_save (self w)) else data_file w.
Proof. unfold save_data. destruct (writable w); reflexivity. Qed.

Lemma store_books_fold (l : list Book.t) (w : World) :
  store_books l w =
  with_books
    (fold_left (fun d book => Dict.set (Book.id book) book d) l (books (self w))) w.
Proof.
  unfold store_books. revert w.
  induction l as [|b l IH]; intros w; simpl.
  - destruct w as [[bs rs] f wr p]. reflexivity.
  - rewrite IH. reflexivity.
Qed.

Lemma self_search_books w query : self (search_books lower w query) = self w.
Proof.
  unfold search_books.
  destruct (search_results lower (self w) (lower query)) as [|r rs].
  - reflexivity.
  - generalize (r :: rs). intros l.
    assert (G : forall w0, self (fold_left
              (fun (w1 : World) '(book, avail) => print (SearchRow book avail) w1)
              l w0) = self w0).
    { induction l as [|[b a] l IH]; intros w0; simpl; auto.
      now rewrite IH. }
    now rewrite G.
Qed.

Lemma self_generate_simple_report w today :
  self (world_of (generate_simple_report w today)) = self w.
Proof.
  unfold generate_simple_report.
  destruct (overdue_loop _ _ _); reflexivity.
Qed.

(** ** The store invariant and its preservation *)

Lemma within_copies_spec m :
  within_copies m = true <->
  forall k b, In (k, b) (books m) -> get_borrowed_count m k <= Book.copies b.
Proof.
  unfold within_copies. rewrite forallb_forall. split.
  - intros H k b Hin. apply Z.leb_le. exact (H (k, b) Hin).
  - intros H [k b] Hin. apply Z.leb_le. auto.
Qed.

Lemma loans_in_catalog_spec m :
  loans_in_catalog m = true <->
  forall r, In r (borrowed_records m) ->
            Dict.mem (Loan.book_id r) (books m) = true.
Proof. unfold loans_in_catalog. now rewrite forallb_forall. Qed.

Lemma store_ok_parts m :
  store_ok m = true <->
  Dict.nodup_keys (books m) = true /\ keyed_by_id (books m) = true
  /\ within_copies m = true /\ loans_in_catalog m = true.
Proof. unfold store_ok, wf_books. rewrite !andb_true_iff. tauto. Qed.

Lemma no_loans_outside m k :
  loans_in_catalog m = true -> Dict.mem k (books m) = false ->
  get_borrowed_count m k = 0.
Proof.
  intros Hl Hk. apply count_where_none. intros r Hr.
  apply String.eqb_neq. intros E.
  apply (proj1 (loans_in_catalog_spec m)) in Hr; [|assumption]. congruence.
Qed.

Lemma keyed_by_id_spec d k b :
  keyed_by_id d = true -> In (k, b) d -> k = Book.id b.
Proof.
  unfold keyed_by_id. rewrite forallb_forall. intros H Hin.
  apply String.eqb_eq. exact (H (k, b) Hin).
Qed.

Lemma store_ok_add m u b :
  store_ok m = true -> Dict.mem u (books m) = false ->
  Book.id b = u -> 0 <= Book.copies b ->
  store_ok {| books := Dict.set u b (books m);
              borrowed_records := borrowed_records m |} = true.
Proof.
  intros Hok Hu Hid Hc.
  pose proof (no_loans_outside m u) as Hzero.
  apply store_ok_parts in Hok as (Hnd & Hkey & Hwc & Hlc).
  apply store_ok_parts; simpl. repeat split.
  - rewrite DictFacts.set_fresh by assumption.
    now apply DictFacts.nodup_keys_app_one.
  - apply DictFacts.forallb_set; [assumption|].
    subst u. apply String.eqb_refl.
  - unfold within_copies; simpl.
    apply DictFacts.forallb_set; [exact Hwc|].
    apply Z.leb_le. unfold get_borrowed_count in *; simpl.
    rewrite Hzero; auto.
  - apply loans_in_catalog_spec; simpl. intros r Hr.
    rewrite DictFacts.mem_set.
    rewrite (proj1 (loans_in_catalog_spec m) Hlc r Hr).
    apply orb_true_r.
Qed.

Lemma store_ok_del m k :
  store_ok m = true -> get_borrowed_count m k <= 0 ->
  store_ok {| books := Dict.del k (books m);
              borrowed_records := borrowed_records m |} = true.
Proof.
  intros Hok Hcount.
  apply store_ok_parts in Hok as (Hnd & Hkey & Hwc & Hlc).
  apply store_ok_parts; simpl. repeat split.
  - now apply DictFacts.nodup_keys_del.
  - now apply DictFacts.forallb_del.
  - unfold within_copies; simpl. apply DictFacts.forallb_del. exact Hwc.
  - apply loans_in_catalog_spec; simpl. intros r Hr.
    rewrite DictFacts.mem_del.
    rewrite (proj1 (loans_in_catalog_spec m) Hlc r Hr).
    pose proof (count_where_zero _ _ Hcount r Hr) as Hne. simpl in Hne.
    now rewrite Hne.
Qed.

Lemma store_ok_borrow m k b (new_record : Loan.t) :
  store_ok m = true -> Dict.get k (books m) = Some b ->
  0 < Book.copies b - get_borrowed_count m k ->
  Loan.book_id new_record = k ->
  store_ok {| books := books m;
              borrowed_records := (borrowed_records m ++ [new_record])%list |}
  = true.
Proof.
  intros Hok Hget Havail Hk.
  apply store_ok_parts in Hok as (Hnd & Hkey & Hwc & Hlc).
  apply store_ok_parts; simpl. repeat split; try assumption.
  - apply within_copies_spec; simpl. intros k' b' Hin.
    unfold get_borrowed_count; simpl. rewrite count_where_app; simpl.
    pose proof (proj1 (within_copies_spec m) Hwc k' b' Hin) as Hle.
    unfold get_borrowed_count in *.
    destruct (String.eqb (Loan.book_id new_record) k') eqn:E; [|lia].
    apply String.eqb_eq in E. rewrite Hk in E. subst k'.
    rewrite (DictFacts.get_in _ _ _ Hnd Hin) in Hget.
    inversion Hget; subst b'. lia.
  - apply loans_in_catalog_spec; simpl. intros r Hr.
    apply in_app_or in Hr as [Hr | [<- | []]].
    + exact (proj1 (loans_in_catalog_spec m) Hlc r Hr).
    + rewrite Hk. unfold Dict.mem. now rewrite Hget.
Qed.

Lemma store_ok_return m l1 r l2 :
  store_ok m = true -> borrowed_records m = (l1 ++ r :: l2)%list ->
  store_ok {| books := books m; borrowed_records := (l1 ++ l2)%list |} = true.
Proof.
  intros Hok Hrec.
  apply store_ok_parts in Hok as (Hnd & Hkey & Hwc & Hlc).
  apply store_ok_parts; simpl. repeat split; try assumption.
  - apply within_copies_spec; simpl. intros k' b' Hin.
    pose proof (proj1 (within_copies_spec m) Hwc k' b' Hin) as Hle.
    unfold get_borrowed_count in *; simpl. rewrite Hrec in Hle.
    rewrite count_where_app in *. simpl in Hle.
    destruct (String.eqb (Loan.book_id r) k'); lia.
  - apply loans_in_catalog_spec; simpl. intros x Hx.
    apply (proj1 (loans_in_catalog_spec m) Hlc). rewrite Hrec.
    apply in_app_or in Hx. apply in_or_app. simpl. tauto.
Qed.

Lemma self_eta (m : LibraryManager) :
  {| books := books m; borrowed_records := borrowed_records m |} = m.
Proof. now destruct m. Qed.

Lemma run_store_ok w op :
  store_ok (self w) = true -> admissible w op = true ->
  store_ok (self (run lower w op)) = true.
Proof.
  intros Hok Hadm. destruct op as [t a c u | k | k uid today | k uid | q | today];
    simpl in *.
  - apply andb_true_iff in Hadm as [Hc Hu].
    apply Z.leb_le in Hc. apply negb_true_iff in Hu.
    rewrite self_save_data. simpl. now apply store_ok_add.
  - unfold delete_book.
    destruct (Dict.get k (books (self w))) as [b|]; [|exact Hok].
    destruct (0 <? get_borrowed_count (self w) k) eqn:E; [exact Hok|].
    simpl. rewrite self_save_data. simpl.
    apply store_ok_del; [assumption|]. apply Z.ltb_ge in E. lia.
  - unfold borrow_book. destruct uid as [uid|]; [|exact Hok].
    destruct (3 <=? user_loans (self w) uid); [exact Hok|].
    destruct (Dict.get k (books (self w))) as [b|] eqn:Hget; [|exact Hok].
    destruct (0 <? Book.copies b - get_borrowed_count (self w) k) eqn:E;
      [|exact Hok].
    destruct (Date.add_days today 7); [|exact Hok].
    simpl. rewrite self_save_data. simpl.
    apply Z.ltb_lt in E. eapply store_ok_borrow; eauto.
  - unfold return_book. destruct uid as [uid|]; [|exact Hok].
    destruct (find _ _) as [r|] eqn:Hf; [|exact Hok].
    destruct (find_then_remove _ _ _ Hf) as (l1 & l2 & Hrec & _ & _ & Hrm).
    simpl. rewrite self_save_data. simpl. rewrite Hrm.
    eapply store_ok_return; eauto.
  - now rewrite self_search_books.
  - now rewrite self_generate_simple_report.
Qed.

Lemma run_all_store_ok ops : forall w,
  store_ok (self w) = true -> admissible_all lower ops w = true ->
  store_ok (self (run_all lower ops w)) = true.
Proof.
  induction ops as [|op ops IH]; intros w Hok Hadm; simpl in *; auto.
  apply andb_true_iff in Hadm as [H1 H2].
  apply IH; [now apply run_store_ok | assumption].
Qed.

Lemma seeded_store_ok can_write : store_ok (self (seeded can_write)) = true.
Proof. destruct can_write; vm_compute; reflexivity. Qed.

Lemma user_loans_records bs rs u :
  user_loans {| books := bs; borrowed_records := rs |} u =
  count_where (fun r => String.eqb (Loan.user_id r) u) rs.
Proof. reflexivity. Qed.

Lemma run_user_cap w op :
  (forall u, user_loans (self w) u <= 3) ->
  forall u, user_loans (self (run lower w op)) u <= 3.
Proof.
  intros Hcap u.
  destruct op as [t a c uu | k | k uid today | k uid | q | today]; simpl.
  - rewrite self_save_data. simpl. apply Hcap.
  - unfold delete_book.
    destruct (Dict.get k (books (self w))) as [b|]; [|apply Hcap].
    destruct (0 <? get_borrowed_count (self w) k); [apply Hcap|].
    simpl. rewrite self_save_data. apply Hcap.
  - unfold borrow_book. destruct uid as [uid|]; [|apply Hcap].
    destruct (3 <=? user_loans (self w) uid) eqn:Hlim; [apply Hcap|].
    destruct (Dict.get k (books (self w))) as [b|]; [|apply Hcap].
    destruct (0 <? _); [|apply Hcap].
    destruct (Date.add_days today 7); [|apply Hcap].
    simpl. rewrite self_save_data. simpl.
    rewrite user_loans_records, count_where_app. simpl.
    apply Z.leb_gt in Hlim. specialize (Hcap u).
    unfold user_loans in *.
    destruct (String.eqb uid u) eqn:E; [|lia].
    apply String.eqb_eq in E. subst u. lia.
  - unfold return_book. destruct uid as [uid|]; [|apply Hcap].
    destruct (find _ _) as [r|] eqn:Hf; [|apply Hcap].
    destruct (find_then_remove _ _ _ Hf) as (l1 & l2 & Hrec & _ & _ & Hrm).
    simpl. rewrite self_save_data. simpl. rewrite Hrm.
    specialize (Hcap u). unfold user_loans in *. simpl.
    rewrite Hrec in Hcap. rewrite count_where_app in *. simpl in Hcap.
    destruct (String.eqb (Loan.user_id r) u); lia.
  - rewrite self_search_books. apply Hcap.
  - rewrite self_generate_simple_report. apply Hcap.
Qed.

(** ** The operations, one by one *)

(** C1, as the code has it.  [borrow_book] for a user refuses exactly
    when the user already has three or more loans, or the book id is not
    in the catalog, or the copies of the book less the loans of that id
    are zero or fewer: it then prints one error and changes neither the
    manager nor the data file.  Otherwise it appends the one record
    [{user_id, book_id, today + 7 days}] and saves, so that a data file
    that can be written holds the new state; a loan the user already has
    on the same book plays no part in the decision.  On a store that
    satisfies the store invariant, zero or fewer is zero available
    copies. *)
Theorem borrow_book_spec w book_id user_id today :
  Date.in_range (today + 7) = true ->
  let m := self w in
  let refused :=
    (3 <=? user_loans m user_id)
    || match Dict.get book_id (books m) with
       | None => true
       | Some book => Book.copies book - get_borrowed_count m book_id <=? 0
       end in
  let new_record :=
    {| Loan.user_id := user_id; Loan.book_id := book_id;
       Loan.due_date := Date.strftime_ymd (today + 7) |} in
  (refused = true ->
   exists e,
     borrow_book w book_id (Some user_id) today = Done (print e w)
     /\ (e = ErrLimit \/ e = ErrBookNotFound book_id
         \/ exists title, e = ErrAllBorrowed title)
     /\ self (print e w) = m /\ data_file (print e w) = data_file w)
  /\ (refused = false ->
      exists book w',
        Dict.get book_id (books m) = Some book
        /\ borrow_book w book_id (Some user_id) today = Done w'
        /\ w' = print (OkBorrowed (Book.title book) (Loan.due_date new_record))
                  (save_data
                     (with_records (borrowed_records m ++ [new_record])%list w))
        /\ books (self w') = books m
        /\ borrowed_records (self w') = (borrowed_records m ++ [new_record])%list
        /\ data_file w'
           = if writable w then Content (data_to_save (self w'))
             else data_file w)
  /\ (store_ok m = true ->
      forall book,
        Dict.get book_id (books m) = Some book ->
        (Book.copies book - get_borrowed_count m book_id <=? 0)
        = (available m book =? 0)).
Proof.
  intros Hclock m refused new_record. subst refused.
  assert (Hinv : store_ok m = true ->
                 forall book,
                   Dict.get book_id (books m) = Some book ->
                   (Book.copies book - get_borrowed_count m book_id <=? 0)
                   = (available m book =? 0)).
  { intros Hok book Hget.
    apply store_ok_parts in Hok as (Hnd & Hkey & Hwc & Hlc).
    pose proof (DictFacts.in_get _ _ _ Hget) as Hin.
    pose proof (keyed_by_id_spec _ _ _ Hkey Hin) as Hid.
    pose proof (proj1 (within_copies_spec m) Hwc _ _ Hin) as Hle.
    unfold available. rewrite <- Hid.
    destruct (Book.copies book - get_borrowed_count m book_id <=? 0) eqn:E1;
      destruct (Book.copies book - get_borrowed_count m book_id =? 0) eqn:E2;
      auto.
    - apply Z.leb_le in E1. apply Z.eqb_neq in E2. lia.
    - apply Z.leb_gt in E1. apply Z.eqb_eq in E2. lia. }
  unfold borrow_book. fold m.
  destruct (3 <=? user_loans m user_id) eqn:Hlim; simpl.
  { split; [|split; [discriminate | exact Hinv]].
    intros _. exists ErrLimit. auto. }
  destruct (Dict.get book_id (books m)) as [book|] eqn:Hget.
  2:{ split; [|split; [discriminate | exact Hinv]].
      intros _. exists (ErrBookNotFound book_id). auto. }
  rewrite (Z.ltb_antisym _ 0).
  destruct (Book.copies book - get_borrowed_count m book_id <=? 0) eqn:Hav;
    simpl.
  - split; [|split; [discriminate | exact Hinv]].
    intros _. exists (ErrAllBorrowed (Book.title book)).
    repeat split; auto. right; right. now exists (Book.title book).
  - split; [discriminate|]. split; [|exact Hinv].
    intros _. unfold Date.add_days. rewrite Hclock.
    eexists book, _. split; [reflexivity|]. split; [reflexivity|].
    split; [reflexivity|]. simpl.
    rewrite data_file_save_data, self_save_data. simpl. auto.
Qed.

(** C2, as the code has it.  After any sequence of operations on the
    seeded store in which every [add_book] is given a copy count of zero
    or more and an id that is not yet in the catalog, as [uuid4] gives,
    every book of the catalog has between 0 and [copies] loan records.
    [add_book] itself takes a negative count, and the bound then fails
    for that book. *)
Theorem borrowed_count_within_copies can_write ops :
  admissible_all lower ops (seeded can_write) = true ->
  forall book,
    In book (Dict.values (books (self (run_all lower ops (seeded can_write))))) ->
    0 <= get_borrowed_count (self (run_all lower ops (seeded can_write))) (Book.id book)
      <= Book.copies book.
Proof.
  intros Hadm book Hin.
  pose proof (run_all_store_ok ops _ (seeded_store_ok can_write) Hadm) as Hok.
  apply store_ok_parts in Hok as (Hnd & Hkey & Hwc & Hlc).
  split; [apply count_where_nonneg|].
  unfold Dict.values in Hin. apply in_map_iff in Hin as ([k b] & Hb & Hin).
  simpl in Hb. subst b.
  rewrite <- (keyed_by_id_spec _ _ _ Hkey Hin).
  exact (proj1 (within_copies_spec _) Hwc _ _ Hin).
Qed.

(** C5. After any sequence of operations on the seeded store, no user id
    has more than three loan records. *)
Theorem user_loans_at_most_three can_write ops user_id :
  user_loans (self (run_all lower ops (seeded can_write))) user_id <= 3.
Proof.
  assert (G : forall w, (forall u, user_loans (self w) u <= 3) ->
                        forall u, user_loans (self (run_all lower ops w)) u <= 3).
  { induction ops as [|op ops IH]; intros w Hw u; simpl; auto.
    apply IH. now apply run_user_cap. }
  apply G. intros u. destruct can_write; vm_compute; discriminate.
Qed.

(** C10. With [user_id = None], [borrow_book] and [return_book] return at
    once: no record is added or removed, the catalog, the data file and
    the output stay as they are. *)
Theorem none_user_is_noop w book_id today :
  borrow_book w book_id None today = Done w
  /\ return_book w book_id None = w.
Proof. split; reflexivity. Qed.

(** C3. [delete_book] returns [False] and changes neither the catalog, the
    loan records nor the data file when the id is not in the catalog or a
    copy of the book is on loan; otherwise it removes that entry and no
    other from the catalog, saves, so that a data file that can be
    written holds the new state, and returns [True]. *)
Theorem delete_book_spec w book_id :
  let m := self w in
  let refused :=
    negb (Dict.mem book_id (books m)) || (0 <? get_borrowed_count m book_id) in
  let '(result, w') := delete_book w book_id in
  if refused then
    result = false /\ self w' = m /\ data_file w' = data_file w
  else
    result = true
    /\ (exists title,
          w' = print (OkDeleted title)
                 (save_data (with_books (Dict.del book_id (books m)) w)))
    /\ books (self w')
       = filter (fun e => negb (String.eqb book_id (fst e))) (books m)
    /\ Dict.get book_id (books (self w')) = None
    /\ (forall k, k <> book_id ->
                  Dict.get k (books (self w')) = Dict.get k (books m))
    /\ borrowed_records (self w') = borrowed_records m
    /\ data_file w'
       = if writable w then Content (data_to_save (self w'))
         else data_file w.
Proof.
  intros m. unfold delete_book, Dict.mem. fold m.
  destruct (Dict.get book_id (books m)) as [book|] eqn:Hget; simpl.
  - destruct (0 <? get_borrowed_count m book_id); simpl.
    + auto.
    + rewrite data_file_save_data, self_save_data. simpl.
      split; [reflexivity|]. split; [now exists (Book.title book)|].
      split; [apply DictFacts.del_filter|].
      split; [apply DictFacts.get_del_same|].
      split; [intros k Hk; now apply DictFacts.get_del_other|].
      split; reflexivity.
  - auto.
Qed.

(** C6. [return_book] for a user takes out the first loan record that
    matches both the user and the book, and no other, and saves, so that
    a data file that can be written holds the new state: the book then
    has one more available copy.  When no record matches it prints the
    not-found error and changes nothing else. *)
Theorem return_book_spec w book_id user_id :
  let m := self w in
  let w' := return_book w book_id (Some user_id) in
  match find (loan_of user_id book_id) (borrowed_records m) with
  | None =>
      w' = print (ErrNoRecord book_id) w
      /\ self w' = m /\ data_file w' = data_file w
  | Some record =>
      exists before after,
        borrowed_records m = (before ++ record :: after)%list
        /\ (forall r, In r before -> loan_of user_id book_id r = false)
        /\ loan_of user_id book_id record = true
        /\ (exists title,
              w' = print (OkReturned title)
                     (save_data (with_records (before ++ after)%list w)))
        /\ borrowed_records (self w') = (before ++ after)%list
        /\ books (self w') = books m
        /\ (forall book, Book.id book = book_id ->
                         available (self w') book = available m book + 1)
        /\ data_file w'
           = if writable w then Content (data_to_save (self w'))
             else data_file w
  end.
Proof.
  intros m w'. subst w'. unfold return_book. fold m.
  destruct (find (loan_of user_id book_id) (borrowed_records m))
    as [record|] eqn:Hf.
  - destruct (find_then_remove _ _ _ Hf) as (l1 & l2 & Hrec & Hl1 & Hr & Hrm).
    exists l1, l2. rewrite Hrm.
    split; [assumption|]. split; [assumption|]. split; [assumption|].
    split; [eexists; reflexivity|].
    simpl. rewrite data_file_save_data, self_save_data. simpl.
    split; [reflexivity|]. split; [reflexivity|]. split; [|reflexivity].
    intros book Hid. unfold available, get_borrowed_count. simpl.
    fold m. rewrite Hrec, !count_where_app. simpl.
    unfold loan_of in Hr. apply andb_true_iff in Hr as [_ Hb].
    rewrite Hid, Hb. lia.
  - auto.
Qed.

(** ** Persistence *)

Lemma from_dict_to_dict book : from_dict (to_dict book) = book.
Proof. now destruct book. Qed.

Lemma saved_values (d : Dict.t Book.t) :
  map from_dict
      (Dict.values (map (fun '(book_id, book) => (book_id, to_dict book)) d))
  = Dict.values d.
Proof.
  unfold Dict.values.
  induction d as [|[k b] d IH]; simpl; [reflexivity|].
  now rewrite IH, from_dict_to_dict.
Qed.

(** Storing the values of a well-formed dict one after the other, each
    under its id, builds the same dict again. *)
Lemma restore_books (d : Dict.t Book.t) : forall acc,
  wf_books d = true ->
  (forall k b, In (k, b) d -> Dict.mem k acc = false) ->
  fold_left (fun d' book => Dict.set (Book.id book) book d') (Dict.values d) acc
  = (acc ++ d)%list.
Proof.
  induction d as [|[k b] d IH]; intros acc Hwf Hfresh; simpl.
  - now rewrite app_nil_r.
  - unfold wf_books in Hwf. simpl in Hwf.
    apply andb_true_iff in Hwf as [Hnd Hkey].
    apply andb_true_iff in Hnd as [Hk Hnd].
    apply andb_true_iff in Hkey as [Hid Hkey].
    apply String.eqb_eq in Hid. rewrite <- Hid.
    rewrite DictFacts.set_fresh by (apply (Hfresh k b); now left).
    unfold Dict.values in IH. rewrite IH.
    + now rewrite <- app_assoc.
    + unfold wf_books. now rewrite Hnd, Hkey.
    + intros k' b' Hin. rewrite DictFacts.mem_app.
      rewrite (Hfresh k' b') by now right.
      unfold Dict.mem at 1. simpl.
      destruct (String.eqb k' k) eqn:E; [|reflexivity].
      apply String.eqb_eq in E. subst k'.
      apply negb_true_iff in Hk. unfold Dict.mem in Hk.
      rewrite (DictFacts.get_in _ _ _ Hnd Hin) in Hk. discriminate.
Qed.

(** C4. When the data file can be written and the catalog is a
    well-formed dict (no key twice, every book under its own id), a
    manager that starts anywhere on the file [save_data] has written,
    whatever that world held before, has the same catalog and the same
    loan records, field by field and in the same order. *)
Theorem save_then_load_round_trip w fresh :
  writable w = true ->
  wf_books (books (self w)) = true ->
  data_file fresh = data_file (save_data w) ->
  self (LibraryManager_init fresh) = self w.
Proof.
  intros Hwr Hwf Hfile. unfold save_data in Hfile. rewrite Hwr in Hfile.
  simpl in Hfile.
  unfold LibraryManager_init, load_data. simpl. rewrite Hfile. simpl.
  rewrite store_books_fold. simpl.
  rewrite saved_values, restore_books; auto.
  simpl. apply self_eta.
Qed.

(** Every store the operations build from the seeded one has a
    well-formed catalog, so the round trip applies to it. *)
Lemma reachable_wf_books can_write ops :
  admissible_all lower ops (seeded can_write) = true ->
  wf_books (books (self (run_all lower ops (seeded can_write)))) = true.
Proof.
  intros Hadm.
  pose proof (run_all_store_ok ops _ (seeded_store_ok can_write) Hadm) as Hok.
  apply store_ok_parts in Hok as (Hnd & Hkey & _).
  unfold wf_books. now rewrite Hnd, Hkey.
Qed.

(** ** The report *)

Lemma overdue_loop_counts today records : forall acc,
  overdue_loop today records acc =
  if forallb (fun r => match Date.fromisoformat (Loan.due_date r) with
                       | Some _ => true | None => false end) records
  then Some (acc + count_where
                     (fun r => match Date.fromisoformat (Loan.due_date r) with
                               | Some due_date => due_date <? today
                               | None => false end) records)
  else None.
Proof.
  induction records as [|r rs IH]; intros acc; simpl.
  - f_equal. lia.
  - destruct (Date.fromisoformat (Loan.due_date r)) as [d|]; simpl; auto.
    rewrite IH. destruct (forallb _ rs); auto.
    f_equal. destruct (d <? today); lia.
Qed.

(** C8. Started without a data file, the manager holds the three sample
    books (3, 5 and 1 copies) and no loan record, and the report on that
    store prints 3 titles, 9 copies, 0 issued and 0 overdue.  In general
    the overdue figure is the number of records whose due date is
    strictly before today. *)
Theorem seeded_store_and_report w today :
  data_file w = Absent ->
  let w' := LibraryManager_init w in
  books (self w')
  = [ ("1", Book.make "1" "The Great Gatsby" "F. Scott Fitzgerald" 3);
      ("2", Book.make "2" "1984" "George Orwell" 5);
      ("3", Book.make "3" "Moby Dick" "Herman Melville" 1) ]
  /\ borrowed_records (self w') = []
  /\ generate_simple_report w' today
     = Done (print (ReportOverdue 0) (print (ReportTotals 3 9 0) w'))
  /\ (forall w0 : World,
        forallb (fun r => match Date.fromisoformat (Loan.due_date r) with
                          | Some _ => true | None => false end)
                (borrowed_records (self w0)) = true ->
        exists totals,
          generate_simple_report w0 today
          = Done (print
                    (ReportOverdue
                       (count_where
                          (fun r => match Date.fromisoformat (Loan.due_date r) with
                                    | Some due_date => due_date <? today
                                    | None => false end)
                          (borrowed_records (self w0))))
                    (print totals w0))).
Proof.
  intros Habs w'. subst w'.
  destruct w as [m f can_write out]. simpl in Habs. subst f.
  split; [reflexivity|]. split; [reflexivity|]. split; [reflexivity|].
  intros w0 Hparse. unfold generate_simple_report. simpl.
  rewrite overdue_loop_counts, Hparse. eexists. reflexivity.
Qed.

(** ** Adding a book *)

Lemma read_copies_spec entries : forall w,
  exists rejected rest,
    entries = (rejected ++ rest)%list
    /\ (forall e, In e rejected ->
                  match e with Some copies => copies <= 0 | None => True end)
    /\ let w1 := fold_left (fun w0 _ => print ErrPositiveCopies w0) rejected w in
       match rest with
       | [] => read_copies entries w = (None, w1)
       | e :: _ =>
           exists copies,
             e = Some copies /\ 0 < copies
             /\ read_copies entries w = (Some copies, w1)
       end.
Proof.
  induction entries as [|e entries IH]; intros w.
  - exists [], []. simpl. split; [reflexivity|]. split; [tauto|reflexivity].
  - assert (Hrej : forall bad : option Z,
               match bad with Some c => c <= 0 | None => True end ->
               e = bad ->
               read_copies (e :: entries) w
               = read_copies entries (print ErrPositiveCopies w) ->
               exists rejected rest,
                 (e :: entries = rejected ++ rest)%list
                 /\ (forall e0, In e0 rejected ->
                       match e0 with Some c => c <= 0 | None => True end)
                 /\ let w1 := fold_left (fun w0 _ => print ErrPositiveCopies w0)
                                        rejected w in
                    match rest with
                    | [] => read_copies (e :: entries) w = (None, w1)
                    | e1 :: _ =>
                        exists copies,
                          e1 = Some copies /\ 0 < copies
                          /\ read_copies (e :: entries) w = (Some copies, w1)
                    end).
    { intros bad Hbad -> Hstep.
      destruct (IH (print ErrPositiveCopies w)) as (rej & rest & -> & Hall & Hres).
      exists (bad :: rej), rest. split; [reflexivity|]. split.
      - intros e0 [Heq | Hin]; [subst e0; exact Hbad | exact (Hall e0 Hin)].
      - rewrite Hstep. exact Hres. }
    destruct e as [copies|].
    + destruct (copies <=? 0) eqn:E.
      * apply (Hrej (Some copies)); auto.
        -- now apply Z.leb_le.
        -- simpl. now rewrite E.
      * exists [], (Some copies :: entries). simpl. rewrite E.
        split; [reflexivity|]. split; [tauto|].
        exists copies. apply Z.leb_gt in E. auto.
    + apply (Hrej None); simpl; auto.
Qed.

Lemma prints_keep_state {A : Type} (l : list A) (msg : message) : forall w,
  self (fold_left (fun w0 _ => print msg w0) l w) = self w
  /\ data_file (fold_left (fun w0 _ => print msg w0) l w) = data_file w
  /\ printed (fold_left (fun w0 _ => print msg w0) l w)
     = (printed w ++ repeat msg (List.length l))%list.
Proof.
  induction l as [|x l IH]; intros w; simpl.
  - now rewrite app_nil_r.
  - destruct (IH (print msg w)) as (H1 & H2 & H3).
    rewrite H1, H2, H3. simpl. now rewrite <- app_assoc.
Qed.

(** C9, as the code has it.  [add_book] checks nothing: whatever the copy
    count, it stores the new book under the fresh id and saves.  The check
    is in the staff menu: every entry that is not a positive number is
    answered with the error message, changes no state and writes nothing,
    and the prompt is repeated; [add_book] is called with the first
    positive entry only, and not at all when the input ends before one. *)
Theorem add_book_guarded_by_menu w title author entries uuid :
  (forall copies,
     add_book w title author copies uuid
     = (Book.make uuid title author copies,
        save_data
          (with_books
             (Dict.set uuid (Book.make uuid title author copies) (books (self w)))
             w)))
  /\ exists rejected rest,
       entries = (rejected ++ rest)%list
       /\ (forall e, In e rejected ->
                     match e with Some copies => copies <= 0 | None => True end)
       /\ exists w1,
            self w1 = self w /\ data_file w1 = data_file w
            /\ printed w1
               = (printed w ++ repeat ErrPositiveCopies (List.length rejected))%list
            /\ match rest with
               | [] =>
                   staff_add_book_menu w title author entries uuid
                   = Raised EOFError w1
               | e :: _ =>
                   exists copies,
                     e = Some copies /\ 0 < copies
                     /\ staff_add_book_menu w title author entries uuid
                        = Done (print (OkAdded title author)
                                  (snd (add_book w1 title author copies uuid)))
               end.
Proof.
  split; [reflexivity|].
  destruct (read_copies_spec entries w) as (rejected & rest & Hsplit & Hall & Hres).
  exists rejected, rest. split; [assumption|]. split; [assumption|].
  destruct (prints_keep_state rejected ErrPositiveCopies w) as (H1 & H2 & H3).
  eexists. split; [exact H1|]. split; [exact H2|]. split; [exact H3|].
  unfold staff_add_book_menu. simpl in Hres.
  destruct rest as [|e rest'].
  - now rewrite Hres.
  - destruct Hres as (copies & He & Hpos & Hres).
    exists copies. rewrite Hres. auto.
Qed.

(** ** Searching *)

Lemma search_results_filter m query :
  search_results lower m query
  = map (fun book => (book, available m book))
        (filter (matches lower query) (Dict.values (books m))).
Proof.
  unfold search_results. generalize (Dict.values (books m)). intros l.
  assert (G : forall acc,
             fold_left
               (fun results book =>
                  if matches lower query book
                  then (results ++ [(book, available m book)])%list
                  else results) l acc
             = (acc ++ map (fun book => (book, available m book))
                           (filter (matches lower query) l))%list).
  { induction l as [|b l IH]; intros acc; simpl.
    - now rewrite app_nil_r.
    - rewrite IH. destruct (matches lower query b); simpl; auto.
      now rewrite <- app_assoc. }
  apply G.
Qed.

Lemma print_rows (rows : list (Book.t * Z)) : forall w,
  fold_left (fun w0 '(book, avail) => print (SearchRow book avail) w0) rows w
  = {| self := self w; data_file := data_file w; writable := writable w;
       printed :=
         (printed w ++ map (fun '(book, avail) => SearchRow book avail) rows)%list |}.
Proof.
  induction rows as [|[b a] rows IH]; intros w; simpl.
  - rewrite app_nil_r. now destruct w.
  - rewrite IH. simpl. now rewrite <- app_assoc.
Qed.

(** C7, as the code has it.  [search_books] finds exactly the books for
    which the lowered query occurs in the lowered title or the lowered
    author, each with its available copies ([copies] minus its loan
    count), in the order of the catalog; it prints one row for each and
    changes nothing else.  When the query, the titles and the authors are
    ASCII text, where [str.lower] only turns A-Z into a-z, these are
    exactly the books whose title or author has the query as a
    case-insensitive substring. *)
Theorem search_books_spec w query :
  let m := self w in
  let q := lower query in
  let hits := filter (matches lower q) (Dict.values (books m)) in
  search_results lower m q
  = map (fun book =>
           (book, Book.copies book - get_borrowed_count m (Book.id book))) hits
  /\ (forall book,
        In book hits <->
        In book (Dict.values (books m))
        /\ (Str.contains (lower query) (lower (Book.title book)) = true
            \/ Str.contains (lower query) (lower (Book.author book)) = true))
  /\ ((forall s, Str.is_ascii s = true -> lower s = Str.ascii_lower s) ->
      Str.is_ascii query = true ->
      forall book,
        Str.is_ascii (Book.title book) = true ->
        Str.is_ascii (Book.author book) = true ->
        (In book hits <->
         In book (Dict.values (books m))
         /\ (Str.ci_substring query (Book.title book)
             \/ Str.ci_substring query (Book.author book))))
  /\ search_books lower w query
     = {| self := m; data_file := data_file w; writable := writable w;
          printed :=
            (printed w
             ++ match hits with
                | [] => [InfoNoMatch q]
                | _ => SearchHeader q
                       :: map (fun book => SearchRow book (available m book)) hits
                end)%list |}.
Proof.
  intros m q hits. split; [apply search_results_filter|].
  assert (Hhits : forall book,
             In book hits <->
             In book (Dict.values (books m))
             /\ (Str.contains (lower query) (lower (Book.title book)) = true
                 \/ Str.contains (lower query) (lower (Book.author book)) = true)).
  { intros book. subst hits q. rewrite filter_In. unfold matches.
    now rewrite orb_true_iff. }
  split; [exact Hhits|]. split.
  - intros Hlower Hq book Ht Ha. rewrite Hhits.
    rewrite (Hlower query Hq), (Hlower _ Ht), (Hlower _ Ha).
    now rewrite !StrFacts.contains_lower.
  - unfold search_books. fold m q. rewrite search_results_filter. fold hits.
    destruct hits as [|b hits']; [reflexivity|].
    cbn [map]. rewrite print_rows. simpl.
    now rewrite <- app_assoc, map_map.
Qed.

(** ** Dates written and read back *)

Lemma holds_from_spec n : forall lo f,
  holds_from n lo f = true ->
  forall d, lo <= d < lo + 2 ^ Z.of_nat n -> f d = true.
Proof.
  induction n as [|n IH]; intros lo f H d Hd.
  - simpl in *. assert (d = lo) by lia. now subst.
  - cbn [holds_from] in H. apply andb_true_iff in H as [H1 H2].
    rewrite Nat2Z.inj_succ, Z.pow_succ_r in Hd by lia.
    destruct (Z.lt_ge_cases d (lo + 2 ^ Z.of_nat n)).
    + apply (IH lo); [assumption | lia].
    + apply (IH (lo + 2 ^ Z.of_nat n)); [assumption | lia].
Qed.

Lemma first_cycle_checked : holds_from 18 1 cycle_day_ok = true.
Proof. vm_compute. reflexivity. Qed.

Lemma pads_checked : holds_from 14 0 pad_ok = true.
Proof. vm_compute. reflexivity. Qed.

Lemma is_leap_shift y q : Date.is_leap (y + 400 * q) = Date.is_leap y.
Proof.
  unfold Date.is_leap.
  replace ((y + 400 * q) mod 4) with (y mod 4)
    by (replace (y + 400 * q) with (y + (100 * q) * 4) by lia;
        now rewrite Z.mod_add).
  replace ((y + 400 * q) mod 100) with (y mod 100)
    by (replace (y + 400 * q) with (y + (4 * q) * 100) by lia;
        now rewrite Z.mod_add).
  replace ((y + 400 * q) mod 400) with (y mod 400)
    by (replace (y + 400 * q) with (y + q * 400) by lia;
        now rewrite Z.mod_add).
  reflexivity.
Qed.

Lemma days_in_month_shift y m q :
  Date.days_in_month (y + 400 * q) m = Date.days_in_month y m.
Proof. unfold Date.days_in_month. now rewrite is_leap_shift. Qed.

Lemma ymd2ord_shift y m d q :
  Date.ymd2ord (y + 400 * q) m d = Date.ymd2ord y m d + Date.DI400Y * q.
Proof.
  unfold Date.ymd2ord, Date.days_before_month, Date.days_before_year, Date.DI400Y.
  rewrite is_leap_shift. cbv zeta.
  replace ((y + 400 * q - 1) / 4) with ((y - 1) / 4 + 100 * q)
    by (replace (y + 400 * q - 1) with (y - 1 + (100 * q) * 4) by lia;
        now rewrite Z.div_add).
  replace ((y + 400 * q - 1) / 100) with ((y - 1) / 100 + 4 * q)
    by (replace (y + 400 * q - 1) with (y - 1 + (4 * q) * 100) by lia;
        now rewrite Z.div_add).
  replace ((y + 400 * q - 1) / 400) with ((y - 1) / 400 + q)
    by (replace (y + 400 * q - 1) with (y - 1 + q * 400) by lia;
        now rewrite Z.div_add).
  lia.
Qed.

Lemma ord2ymd_shift r q :
  1 <= r <= Date.DI400Y ->
  Date.ord2ymd (r + Date.DI400Y * q)
  = (let '(y, m, d) := Date.ord2ymd r in (y + 400 * q, m, d)).
Proof.
  intros Hr. unfold Date.ord2ymd. cbv zeta.
  assert (H1 : (r + Date.DI400Y * q - 1) / Date.DI400Y = q).
  { replace (r + Date.DI400Y * q - 1) with (r - 1 + q * Date.DI400Y) by lia.
    rewrite Z.div_add by (unfold Date.DI400Y; lia).
    rewrite Z.div_small; lia. }
  assert (H2 : (r + Date.DI400Y * q - 1) mod Date.DI400Y = r - 1).
  { replace (r + Date.DI400Y * q - 1) with (r - 1 + q * Date.DI400Y) by lia.
    rewrite Z.mod_add by (unfold Date.DI400Y; lia).
    apply Z.mod_small; lia. }
  assert (H3 : (r - 1) / Date.DI400Y = 0) by (apply Z.div_small; lia).
  assert (H4 : (r - 1) mod Date.DI400Y = r - 1) by (apply Z.mod_small; lia).
  rewrite H1, H2, H3, H4.
  destruct (_ || _); [f_equal; f_equal; lia|].
  destruct (_ <? _); f_equal; f_equal; lia.
Qed.

(** Every ordinal of a valid date is split by [ord2ymd] into a year from
    1 to 9999, a month and a day of that month, and [ymd2ord] puts them
    together again. *)
Lemma ord2ymd_valid d :
  Date.in_range d = true ->
  let '(y, m, dd) := Date.ord2ymd d in
  1 <= y <= 9999 /\ 1 <= m <= 12 /\ 1 <= dd <= Date.days_in_month y m
  /\ Date.ymd2ord y m dd = d.
Proof.
  unfold Date.in_range, Date.MINORDINAL, Date.MAXORDINAL.
  intros H. apply andb_true_iff in H as [Hlo Hhi].
  apply Z.leb_le in Hlo, Hhi.
  set (q := (d - 1) / Date.DI400Y).
  set (r := (d - 1) mod Date.DI400Y + 1).
  assert (Hd : d = r + Date.DI400Y * q).
  { subst q r. pose proof (Z.div_mod (d - 1) Date.DI400Y). unfold Date.DI400Y in *. lia. }
  assert (Hr : 1 <= r <= Date.DI400Y).
  { subst r. pose proof (Z.mod_pos_bound (d - 1) Date.DI400Y).
    unfold Date.DI400Y in *. lia. }
  assert (Hq : 0 <= q <= 24).
  { subst q. unfold Date.DI400Y. split.
    - apply Z.div_pos; lia.
    - enough (H25 : (d - 1) / 146097 < 25) by lia.
      apply Z.div_lt_upper_bound; lia. }
  pose proof (holds_from_spec _ _ _ first_cycle_checked r) as Hc.
  unfold cycle_day_ok in Hc.
  assert (Hin : (1 <=? r) && (r <=? Date.DI400Y) = true).
  { apply andb_true_iff. split; apply Z.leb_le; lia. }
  rewrite Hin in Hc. simpl negb in Hc. simpl orb in Hc.
  clearbody q r. subst d. rewrite ord2ymd_shift by assumption.
  destruct (Date.ord2ymd r) as [[y m] dd].
  specialize (Hc ltac:(unfold Date.DI400Y in *; simpl; lia)).
  rewrite !andb_true_iff in Hc.
  destruct Hc as (((((((Hy1 & Hy2) & Hy3) & Hm1) & Hm2) & Hd1) & Hd2) & Hord).
  apply Z.leb_le in Hy1, Hy2, Hm1, Hm2, Hd1, Hd2. apply Z.eqb_eq in Hord.
  rewrite days_in_month_shift, ymd2ord_shift, Hord.
  repeat split; try lia.
  apply orb_true_iff in Hy3 as [Hy3 | Hy3].
  - apply Z.ltb_lt in Hy3. unfold Date.DI400Y in *. lia.
  - apply Z.leb_le in Hy3. lia.
Qed.

Lemma number_pad4 n : 0 <= n <= 9999 -> Date.number (Date.pad4 n) 0 = Some n.
Proof.
  intros Hn.
  pose proof (holds_from_spec _ _ _ pads_checked n ltac:(change (2 ^ Z.of_nat 14) with 16384; lia)) as H.
  unfold pad_ok in H.
  replace ((0 <=? n) && (n <=? 9999)) with true in H
    by (symmetry; apply andb_true_iff; split; apply Z.leb_le; lia).
  cbn [negb orb] in H. apply andb_true_iff in H as [H _].
  destruct (Date.number (Date.pad4 n) 0) as [v|]; [|discriminate].
  apply Z.eqb_eq in H. now subst.
Qed.

Lemma number_pad2 n : 0 <= n <= 99 -> Date.number (Date.pad2 n) 0 = Some n.
Proof.
  intros Hn.
  pose proof (holds_from_spec _ _ _ pads_checked n ltac:(change (2 ^ Z.of_nat 14) with 16384; lia)) as H.
  unfold pad_ok in H.
  replace ((0 <=? n) && (n <=? 9999)) with true in H
    by (symmetry; apply andb_true_iff; split; apply Z.leb_le; lia).
  replace (n <=? 99) with true in H by (symmetry; apply Z.leb_le; lia).
  cbn [negb orb] in H. apply andb_true_iff in H as [_ H].
  destruct (Date.number (Date.pad2 n) 0) as [v|]; [|discriminate].
  apply Z.eqb_eq in H. now subst.
Qed.

Lemma fromisoformat_pads y m d :
  Date.fromisoformat (Date.pad4 y ++ "-" ++ Date.pad2 m ++ "-" ++ Date.pad2 d)
  = match Date.number (Date.pad4 y) 0, Date.number (Date.pad2 m) 0,
          Date.number (Date.pad2 d) 0 with
    | Some y', Some m', Some d' =>
        if (1 <=? y') && (1 <=? m') && (m' <=? 12)
           && (1 <=? d') && (d' <=? Date.days_in_month y' m')
        then Some (Date.ymd2ord y' m' d') else None
    | _, _, _ => None
    end.
Proof. reflexivity. Qed.

(** What [strftime] writes for a valid date, [fromisoformat] reads back
    as that date. *)
Lemma fromisoformat_strftime d :
  Date.in_range d = true ->
  Date.fromisoformat (Date.strftime_ymd d) = Some d.
Proof.
  intros Hd. pose proof (ord2ymd_valid d Hd) as H.
  unfold Date.strftime_ymd.
  destruct (Date.ord2ymd d) as [[y m] dd].
  destruct H as (Hy & Hm & Hdd & Hord).
  assert (Hdim : Date.days_in_month y m <= 31).
  { unfold Date.days_in_month.
    destruct ((m =? 2) && Date.is_leap y); [lia|].
    assert (Hcases : m = 1 \/ m = 2 \/ m = 3 \/ m = 4 \/ m = 5 \/ m = 6 \/ m = 7
            \/ m = 8 \/ m = 9 \/ m = 10 \/ m = 11 \/ m = 12) by lia.
    repeat (destruct Hcases as [-> | Hcases]; [simpl; lia|]).
    subst. simpl. lia. }
  rewrite fromisoformat_pads.
  rewrite number_pad4, !number_pad2 by lia.
  replace ((1 <=? y) && (1 <=? m) && (m <=? 12) && (1 <=? dd)
           && (dd <=? Date.days_in_month y m)) with true.
  - now rewrite Hord.
  - symmetry. rewrite !andb_true_iff. repeat split; apply Z.leb_le; lia.
Qed.

Lemma add_days_in_range d n d' :
  Date.add_days d n = Some d' -> d' = d + n /\ Date.in_range d' = true.
Proof.
  unfold Date.add_days. destruct (Date.in_range (d + n)) eqn:E; [|discriminate].
  intros H. inversion H. subst. auto.
Qed.

(** ** The report on the records the manager writes *)

Lemma due_dates_parse_app bs rs r :
  due_dates_parse {| books := bs; borrowed_records := (rs ++ [r])%list |}
  = due_dates_parse {| books := bs; borrowed_records := rs |}
    && match Date.fromisoformat (Loan.due_date r) with
       | Some _ => true | None => false end.
Proof.
  unfold due_dates_parse. simpl. rewrite forallb_app. simpl.
  now rewrite andb_true_r.
Qed.

Lemma run_due_dates_parse w op :
  due_dates_parse (self w) = true -> due_dates_parse (self (run lower w op)) = true.
Proof.
  intros Hok.
  destruct op as [t a c u | k | k uid today | k uid | q | today]; simpl.
  - rewrite self_save_data. exact Hok.
  - unfold delete_book.
    destruct (Dict.get k (books (self w))) as [b|]; [|exact Hok].
    destruct (0 <? get_borrowed_count (self w) k); [exact Hok|].
    simpl. rewrite self_save_data. exact Hok.
  - unfold borrow_book. destruct uid as [uid|]; [|exact Hok].
    destruct (3 <=? user_loans (self w) uid); [exact Hok|].
    destruct (Dict.get k (books (self w))) as [b|]; [|exact Hok].
    destruct (0 <? _); [|exact Hok].
    destruct (Date.add_days today 7) as [due|] eqn:Hdue; [|exact Hok].
    apply add_days_in_range in Hdue as [_ Hdue].
    simpl. rewrite self_save_data. simpl.
    rewrite due_dates_parse_app. simpl.
    rewrite fromisoformat_strftime by assumption.
    rewrite andb_true_r. now rewrite self_eta.
  - unfold return_book. destruct uid as [uid|]; [|exact Hok].
    destruct (find _ _) as [r|] eqn:Hf; [|exact Hok].
    destruct (find_then_remove _ _ _ Hf) as (l1 & l2 & Hrec & _ & _ & Hrm).
    simpl. rewrite self_save_data. simpl. rewrite Hrm.
    unfold due_dates_parse in *. simpl. rewrite Hrec in Hok.
    rewrite forallb_app in *. simpl in Hok.
    apply andb_true_iff in Hok as [H1 H2].
    apply andb_true_iff in H2 as [_ H2]. now rewrite H1, H2.
  - now rewrite self_search_books.
  - now rewrite self_generate_simple_report.
Qed.

(** X1. On a store built from the seeded one by any operations,
    [generate_simple_report] never fails on a due date: every due date in
    the records was written by [borrow_book] and is read back by
    [fromisoformat], so the report runs to its end and prints the overdue
    count. *)
Theorem report_never_raises can_write ops today :
  exists overdue_count totals,
    generate_simple_report (run_all lower ops (seeded can_write)) today
    = Done (print (ReportOverdue overdue_count)
              (print totals (run_all lower ops (seeded can_write)))).
Proof.
  assert (G : forall w, due_dates_parse (self w) = true ->
                        due_dates_parse (self (run_all lower ops w)) = true).
  { induction ops as [|op ops IH]; intros w Hw; simpl; auto.
    apply IH. now apply run_due_dates_parse. }
  assert (H0 : due_dates_parse (self (seeded can_write)) = true)
    by (destruct can_write; reflexivity).
  specialize (G _ H0). unfold due_dates_parse in G.
  unfold generate_simple_report. simpl.
  rewrite overdue_loop_counts, G. eauto.
Qed.

(** X2. A loan counts as overdue from the eighth day on.  When
    [borrow_book] succeeds on day [today], the overdue count of a report
    made on day [report_day] grows by one if [today + 7 < report_day] and
    stays the same otherwise. *)
Theorem new_loan_overdue_after_a_week w book_id user_id today report_day book n :
  user_loans (self w) user_id < 3 ->
  Dict.get book_id (books (self w)) = Some book ->
  0 < Book.copies book - get_borrowed_count (self w) book_id ->
  Date.in_range (today + 7) = true ->
  overdue_loop report_day (borrowed_records (self w)) 0 = Some n ->
  overdue_loop report_day
    (borrowed_records
       (self (world_of (borrow_book w book_id (Some user_id) today)))) 0
  = Some (n + (if today + 7 <? report_day then 1 else 0)).
Proof.
  intros Hcap Hget Hav Hclock Hn. unfold borrow_book.
  apply Z.leb_gt in Hcap. rewrite Hcap, Hget.
  apply Z.ltb_lt in Hav. rewrite Hav.
  unfold Date.add_days. rewrite Hclock. simpl.
  rewrite self_save_data. simpl.
  rewrite overdue_loop_counts in *.
  rewrite forallb_app, count_where_app. simpl.
  rewrite fromisoformat_strftime by assumption.
  destruct (forallb _ (borrowed_records (self w))); [|discriminate].
  inversion Hn. simpl. f_equal. lia.
Qed.

(** ** Operations in sequence *)

Lemma borrow_book_success w book_id user_id today book :
  user_loans (self w) user_id < 3 ->
  Dict.get book_id (books (self w)) = Some book ->
  0 < Book.copies book - get_borrowed_count (self w) book_id ->
  Date.in_range (today + 7) = true ->
  borrow_book w book_id (Some user_id) today
  = Done (print (OkBorrowed (Book.title book) (Date.strftime_ymd (today + 7)))
            (save_data
               (with_records
                  (borrowed_records (self w)
                   ++ [ {| Loan.user_id := user_id; Loan.book_id := book_id;
                           Loan.due_date := Date.strftime_ymd (today + 7) |} ])%list
                  w))).
Proof.
  intros Hcap Hget Hav Hclock. unfold borrow_book.
  apply Z.leb_gt in Hcap. rewrite Hcap, Hget.
  apply Z.ltb_lt in Hav. rewrite Hav.
  unfold Date.add_days. now rewrite Hclock.
Qed.

(** X3. A successful [borrow_book] takes exactly one copy of the book
    from its available copies and leaves the catalog and the available
    copies of every other book as they were. *)
Theorem borrow_takes_one_copy w book_id user_id today book :
  user_loans (self w) user_id < 3 ->
  Dict.get book_id (books (self w)) = Some book ->
  0 < Book.copies book - get_borrowed_count (self w) book_id ->
  Date.in_range (today + 7) = true ->
  let w' := world_of (borrow_book w book_id (Some user_id) today) in
  books (self w') = books (self w)
  /\ forall other,
       available (self w') other
       = available (self w) other
         - (if String.eqb book_id (Book.id other) then 1 else 0).
Proof.
  intros Hcap Hget Hav Hclock.
  rewrite (borrow_book_success _ _ _ _ _ Hcap Hget Hav Hclock). simpl.
  rewrite self_save_data. simpl. split; [reflexivity|].
  intros other. unfold available, get_borrowed_count. simpl.
  rewrite count_where_app. simpl. destruct (String.eqb _ _); lia.
Qed.

Lemma del_absent {V : Type} k (d : Dict.t V) :
  Dict.mem k d = false -> Dict.del k d = d.
Proof.
  unfold Dict.mem. induction d as [|[k' v'] d IH]; simpl; auto.
  destruct (String.eqb k k'); [discriminate|].
  intros H. now rewrite IH.
Qed.

Lemma del_set_fresh {V : Type} k (v : V) (d : Dict.t V) :
  Dict.mem k d = false -> Dict.del k (Dict.set k v d) = d.
Proof.
  intros Hk. rewrite DictFacts.set_fresh by assumption.
  rewrite !DictFacts.del_filter, filter_app. simpl.
  rewrite String.eqb_refl. simpl. rewrite app_nil_r.
  rewrite <- DictFacts.del_filter. now apply del_absent.
Qed.

Lemma world_eta w :
  {| self := self w; data_file := data_file w; writable := writable w;
     printed := printed w |} = w.
Proof. now destruct w. Qed.

(** X4. [add_book] with an id not yet in the catalog puts the new book
    last, under that id, and leaves every other entry alone; the book
    holds the given fields and, on a store whose loans are all of catalog
    books, all its copies are available. *)
Theorem add_book_appends w title author copies uuid :
  Dict.mem uuid (books (self w)) = false ->
  loans_in_catalog (self w) = true ->
  let '(new_book, w') := add_book w title author copies uuid in
  new_book = Book.make uuid title author copies
  /\ books (self w') = (books (self w) ++ [(uuid, new_book)])%list
  /\ Dict.get uuid (books (self w')) = Some new_book
  /\ (forall k, k <> uuid ->
                Dict.get k (books (self w')) = Dict.get k (books (self w)))
  /\ borrowed_records (self w') = borrowed_records (self w)
  /\ available (self w') new_book = copies.
Proof.
  intros Hfresh Hloans. unfold add_book. simpl.
  rewrite self_save_data. simpl.
  split; [reflexivity|]. split; [now apply DictFacts.set_fresh|].
  split; [apply DictFacts.get_set_same|].
  split; [intros k Hk; now apply DictFacts.get_set_other|].
  split; [reflexivity|].
  unfold available. simpl.
  pose proof (no_loans_outside _ _ Hloans Hfresh) as H0.
  unfold get_borrowed_count in *. simpl. rewrite H0. lia.
Qed.

(** X5. [delete_book] undoes [add_book]: deleting the id just added
    succeeds and gives back the catalog and the loan records from before
    the book was added. *)
Theorem delete_undoes_add w title author copies uuid :
  Dict.mem uuid (books (self w)) = false ->
  loans_in_catalog (self w) = true ->
  let w1 := snd (add_book w title author copies uuid) in
  fst (delete_book w1 uuid) = true
  /\ self (snd (delete_book w1 uuid)) = self w.
Proof.
  intros Hfresh Hloans. unfold add_book. simpl.
  unfold delete_book. rewrite self_save_data. simpl.
  rewrite DictFacts.get_set_same.
  pose proof (no_loans_outside _ _ Hloans Hfresh) as H0.
  unfold get_borrowed_count in *. simpl. rewrite H0. simpl.
  rewrite self_save_data. simpl. rewrite self_save_data. simpl.
  rewrite del_set_fresh by assumption. split; [reflexivity|]. apply self_eta.
Qed.

Lemma find_app {A : Type} (p : A -> bool) (l1 l2 : list A) :
  find p (l1 ++ l2)%list
  = match find p l1 with Some x => Some x | None => find p l2 end.
Proof. induction l1 as [|x l1 IH]; simpl; auto. now destruct (p x). Qed.

(** X6. [return_book] right after a successful [borrow_book] of the same
    book by the same user.  If the user had no loan of that book before,
    the loan records are as before the two calls.  If the user had one, it
    is that earlier record which is taken out, and the new record, with
    its later due date, stays at the end of the list. *)
Theorem return_after_borrow w book_id user_id today book :
  user_loans (self w) user_id < 3 ->
  Dict.get book_id (books (self w)) = Some book ->
  0 < Book.copies book - get_borrowed_count (self w) book_id ->
  Date.in_range (today + 7) = true ->
  let w1 := world_of (borrow_book w book_id (Some user_id) today) in
  let w2 := return_book w1 book_id (Some user_id) in
  let new_record :=
    {| Loan.user_id := user_id; Loan.book_id := book_id;
       Loan.due_date := Date.strftime_ymd (today + 7) |} in
  books (self w2) = books (self w)
  /\ match find (loan_of user_id book_id) (borrowed_records (self w)) with
     | None => borrowed_records (self w2) = borrowed_records (self w)
     | Some earlier =>
         exists before after,
           borrowed_records (self w) = (before ++ earlier :: after)%list
           /\ (forall r, In r before -> loan_of user_id book_id r = false)
           /\ borrowed_records (self w2)
              = (before ++ after ++ [new_record])%list
     end.
Proof.
  intros Hcap Hget Hav Hclock.
  rewrite (borrow_book_success _ _ _ _ _ Hcap Hget Hav Hclock). simpl.
  unfold return_book. simpl. rewrite self_save_data. simpl.
  rewrite find_app. simpl.
  assert (Hnew : loan_of user_id book_id
                   {| Loan.user_id := user_id; Loan.book_id := book_id;
                      Loan.due_date := Date.strftime_ymd (today + 7) |} = true).
  { unfold loan_of. simpl. now rewrite !String.eqb_refl. }
  rewrite Hnew.
  destruct (find (loan_of user_id book_id) (borrowed_records (self w)))
    as [earlier|] eqn:Hf.
  - destruct (find_then_remove _ _ _ Hf) as (l1 & l2 & Hrec & Hl1 & Hr & Hrm).
    simpl. repeat (rewrite self_save_data; simpl). split; [reflexivity|].
    exists l1, l2. split; [assumption|]. split; [assumption|].
    assert (Hf' : find (loan_of user_id book_id)
                    (borrowed_records (self w)
                     ++ [ {| Loan.user_id := user_id; Loan.book_id := book_id;
                             Loan.due_date := Date.strftime_ymd (today + 7) |} ])%list
                  = Some earlier) by (now rewrite find_app, Hf).
    destruct (find_then_remove _ _ _ Hf') as (m1 & m2 & Hrec' & Hm1 & _ & Hrm').
    rewrite Hrm'. rewrite Hrec in Hrec'. rewrite <- app_assoc in Hrec'.
    simpl in Hrec'.
    assert (Hsame : m1 = l1 /\ m2 = (l2 ++ [ {| Loan.user_id := user_id;
                       Loan.book_id := book_id;
                       Loan.due_date := Date.strftime_ymd (today + 7) |} ])%list).
    { clear - Hrec' Hl1 Hm1 Hr. revert m1 Hrec' Hm1.
      induction l1 as [|x l1 IH]; intros m1 Hrec' Hm1.
      - destruct m1 as [|y m1]; simpl in *.
        + inversion Hrec'. auto.
        + inversion Hrec'; subst y.
          rewrite (Hm1 earlier) in Hr by now left. discriminate.
      - destruct m1 as [|y m1]; simpl in *.
        + inversion Hrec'; subst x.
          rewrite (Hl1 earlier) in Hr by now left. discriminate.
        + inversion Hrec'; subst y.
          destruct (IH (fun r Hin => Hl1 r (or_intror Hin)) m1 H1
                       (fun r Hin => Hm1 r (or_intror Hin))) as [-> ->].
          auto. }
    destruct Hsame as [-> ->]. reflexivity.
  - simpl. repeat (rewrite self_save_data; simpl). split; [reflexivity|].
    assert (Hrm : forall l x,
               (forall r, In r l -> loan_of user_id book_id r = false) ->
               loan_of user_id book_id x = true ->
               list_remove x (l ++ [x])%list = l).
    { intros l x Hl Hx. induction l as [|y l IH]; simpl.
      - assert (E : Loan.eqb x x = true) by now apply Loan_eqb_eq.
        now rewrite E.
      - destruct (Loan.eqb y x) eqn:E.
        + apply Loan_eqb_eq in E. subst y.
          rewrite (Hl x) in Hx by now left. discriminate.
        + rewrite IH; auto. intros r Hr. apply Hl. now right. }
    apply Hrm; [|assumption]. now apply find_none_all.
Qed.

(** ** Loading, and starting again *)

Lemma nodup_keys_set {V : Type} k (v : V) (d : Dict.t V) :
  Dict.nodup_keys d = true -> Dict.nodup_keys (Dict.set k v d) = true.
Proof.
  induction d as [|[k1 v1] d IH]; simpl; auto.
  intros H. apply andb_true_iff in H as [H1 H2].
  destruct (String.eqb k k1) eqn:E; simpl.
  - now rewrite H1, H2.
  - rewrite DictFacts.mem_set, IH by assumption.
    apply negb_true_iff in H1. rewrite H1.
    rewrite String.eqb_sym, E. reflexivity.
Qed.

Lemma wf_books_stored (l : list Book.t) : forall d,
  wf_books d = true ->
  wf_books (fold_left (fun d' book => Dict.set (Book.id book) book d') l d) = true.
Proof.
  induction l as [|b l IH]; intros d Hd; simpl; auto.
  apply IH. unfold wf_books in *. apply andb_true_iff in Hd as [H1 H2].
  rewrite nodup_keys_set by assumption. simpl.
  apply DictFacts.forallb_set; [assumption | apply String.eqb_refl].
Qed.

Lemma get_stored (l : list Book.t) k : forall d,
  Dict.get k (fold_left (fun d' book => Dict.set (Book.id book) book d') l d)
  = match find (fun book => String.eqb (Book.id book) k) (rev l) with
    | Some book => Some book
    | None => Dict.get k d
    end.
Proof.
  induction l as [|b l IH]; intros d; simpl; auto.
  rewrite IH, find_app. simpl.
  destruct (find _ (rev l)); auto.
  destruct (String.eqb (Book.id b) k) eqn:E.
  - apply String.eqb_eq in E. subst k. apply DictFacts.get_set_same.
  - apply String.eqb_neq in E. apply DictFacts.get_set_other. congruence.
Qed.

(** X7. Whatever the data file holds, a manager that starts on it has a
    catalog that is a proper dict keyed by book id: no key twice, every
    book under its own id.  From a document it takes the loan records as
    they are, and when several entries of the document carry the same
    id, the last of them is the book kept. *)
Theorem load_data_builds_a_dict w :
  let w' := LibraryManager_init w in
  wf_books (books (self w')) = true
  /\ forall data,
       data_file w = Content data ->
       let stored :=
         map from_dict
             (Dict.values (match doc_books data with Some d => d | None => [] end)) in
       (forall k,
          Dict.get k (books (self w'))
          = find (fun book => String.eqb (Book.id book) k) (rev stored))
       /\ borrowed_records (self w')
          = match doc_borrowed_records data with Some l => l | None => [] end.
Proof.
  unfold LibraryManager_init, load_data. simpl.
  destruct (data_file w) as [| |data] eqn:Hfile; simpl.
  - split; [reflexivity | discriminate].
  - split; [reflexivity | discriminate].
  - rewrite store_books_fold. simpl. split.
    + now apply wf_books_stored.
    + intros data' Heq. inversion Heq; subst data'. split; [|reflexivity].
      intros k. rewrite get_stored. simpl. now destruct (find _ _).
Qed.

Lemma load_saved w m :
  data_file w = Content (data_to_save m) -> wf_books (books m) = true ->
  self (LibraryManager_init w) = m.
Proof.
  intros Hfile Hwf. unfold LibraryManager_init, load_data. simpl.
  rewrite Hfile. simpl. rewrite store_books_fold. simpl.
  rewrite saved_values, restore_books; auto. simpl. apply self_eta.
Qed.

Lemma data_file_search_books w query :
  data_file (search_books lower w query) = data_file w.
Proof.
  unfold search_books.
  destruct (search_results lower _ _); [reflexivity|].
  now rewrite print_rows.
Qed.

Lemma writable_search_books w query :
  writable (search_books lower w query) = writable w.
Proof.
  unfold search_books.
  destruct (search_results lower _ _); [reflexivity|].
  now rewrite print_rows.
Qed.

Lemma data_file_saved w :
  writable w = true -> data_file (save_data w) = Content (data_to_save (self w)).
Proof. intros H. unfold save_data. now rewrite H. Qed.

(** An operation either leaves the manager and the file alone, or ends by
    writing the manager to the file. *)
Lemma run_keeps_file_current w op :
  writable w = true ->
  writable (run lower w op) = true
  /\ ((self (run lower w op) = self w /\ data_file (run lower w op) = data_file w)
      \/ data_file (run lower w op) = Content (data_to_save (self (run lower w op)))).
Proof.
  intros Hwr.
  destruct op as [t a c u | k | k uid today | k uid | q | today]; simpl.
  - rewrite writable_save_data. split; [exact Hwr|]. right.
    rewrite self_save_data. now apply data_file_saved.
  - unfold delete_book.
    destruct (Dict.get k (books (self w))) as [b|]; [|simpl; auto].
    destruct (0 <? get_borrowed_count (self w) k); [simpl; auto|].
    simpl. rewrite writable_save_data. split; [exact Hwr|]. right.
    rewrite self_save_data. now apply data_file_saved.
  - unfold borrow_book. destruct uid as [uid|]; [|simpl; auto].
    destruct (3 <=? user_loans (self w) uid); [simpl; auto|].
    destruct (Dict.get k (books (self w))) as [b|]; [|simpl; auto].
    destruct (0 <? _); [|simpl; auto].
    destruct (Date.add_days today 7); [|simpl; auto].
    simpl. rewrite writable_save_data. split; [exact Hwr|]. right.
    rewrite self_save_data. now apply data_file_saved.
  - unfold return_book. destruct uid as [uid|]; [|simpl; auto].
    destruct (find _ _) as [r|]; [|simpl; auto].
    simpl. rewrite writable_save_data. split; [exact Hwr|]. right.
    rewrite self_save_data. now apply data_file_saved.
  - rewrite writable_search_books, self_search_books, data_file_search_books.
    auto.
  - unfold generate_simple_report. destruct (overdue_loop _ _ _); simpl; auto.
Qed.

(** X8. Nothing is lost by stopping the program.  After any admissible
    sequence of operations on a first start with a writable file, a
    manager started anew on the data file, in whatever world holds that
    file, has the same catalog and the same loan records as the running
    one. *)
Theorem restart_keeps_the_store ops fresh :
  admissible_all lower ops (seeded true) = true ->
  data_file fresh = data_file (run_all lower ops (seeded true)) ->
  self (LibraryManager_init fresh) = self (run_all lower ops (seeded true)).
Proof.
  intros Hadm Hfresh.
  pose proof (reachable_wf_books true ops Hadm) as Hwf.
  assert (G : forall w,
             writable w = true ->
             (self w = self (seeded true) /\ data_file w = Absent)
             \/ data_file w = Content (data_to_save (self w)) ->
             (self (run_all lower ops w) = self (seeded true)
              /\ data_file (run_all lower ops w) = Absent)
             \/ data_file (run_all lower ops w)
                = Content (data_to_save (self (run_all lower ops w)))).
  { clear. induction ops as [|op ops IH]; intros w Hwr Hw; simpl; auto.
    destruct (run_keeps_file_current w op Hwr) as [Hwr' Hstep].
    apply IH; [assumption|].
    destruct Hstep as [[Hs Hf] | Hsaved]; [|now right].
    rewrite Hs, Hf. exact Hw. }
  destruct (G (seeded true) eq_refl (or_introl (conj eq_refl eq_refl)))
    as [[Hs Hf] | Hsaved].
  - rewrite Hs. rewrite Hf in Hfresh.
    unfold LibraryManager_init, load_data. simpl. rewrite Hfresh.
    reflexivity.
  - apply load_saved; [|assumption]. now rewrite Hfresh.
Qed.

(** ** The totals of the report *)

Lemma sum_of_zero {A : Type} (l : list A) : sum_of (fun _ => 0) l = 0.
Proof. induction l; simpl; auto. Qed.

Lemma sum_of_plus {A : Type} (f g : A -> Z) (l : list A) :
  sum_of (fun x => f x + g x) l = sum_of f l + sum_of g l.
Proof. induction l as [|x l IH]; simpl; [reflexivity | rewrite IH; lia]. Qed.

Lemma sum_of_le {A : Type} (f g : A -> Z) (l : list A) :
  (forall x, In x l -> f x <= g x) -> sum_of f l <= sum_of g l.
Proof.
  induction l as [|x l IH]; simpl; intros H; [lia|].
  pose proof (H x (or_introl eq_refl)).
  assert (sum_of f l <= sum_of g l) by (apply IH; auto). lia.
Qed.

Lemma sum_of_map {A B : Type} (f : B -> Z) (g : A -> B) (l : list A) :
  sum_of f (map g l) = sum_of (fun x => f (g x)) l.
Proof. induction l as [|x l IH]; simpl; [reflexivity | now rewrite IH]. Qed.

(** A key of a dict is the key of one entry. *)
Lemma one_entry_per_key {V : Type} x (d : Dict.t V) :
  Dict.nodup_keys d = true ->
  sum_of (fun e => if String.eqb x (fst e) then 1 else 0) d
  = if Dict.mem x d then 1 else 0.
Proof.
  unfold Dict.mem. induction d as [|[k v] d IH]; simpl; auto.
  intros H. apply andb_true_iff in H as [Hk Hd].
  rewrite IH by assumption.
  destruct (String.eqb x k) eqn:E; [|reflexivity].
  apply String.eqb_eq in E. subst k.
  apply negb_true_iff in Hk. unfold Dict.mem in Hk.
  destruct (Dict.get x d); [discriminate | reflexivity].
Qed.

Lemma loans_by_book (d : Dict.t Book.t) (rs : list Loan.t) :
  Dict.nodup_keys d = true ->
  (forall r, In r rs -> Dict.mem (Loan.book_id r) d = true) ->
  Z.of_nat (List.length rs)
  = sum_of (fun e => count_where
                       (fun r => String.eqb (Loan.book_id r) (fst e)) rs) d.
Proof.
  intros Hnd. induction rs as [|r rs IH]; intros Hin.
  - simpl. now rewrite sum_of_zero.
  - cbn [List.length count_where]. rewrite Nat2Z.inj_succ.
    rewrite sum_of_plus, <- IH by (intros x Hx; apply Hin; now right).
    rewrite one_entry_per_key by assumption.
    rewrite (Hin r) by now left. lia.
Qed.

(** X9. On a store that satisfies the store invariant the totals of the
    report fit together: the number of issued books is the sum of the
    loan counts of the catalog's books, it lies between 0 and the total
    number of copies, and what remains is the sum of the available
    copies. *)
Theorem report_totals_consistent w today :
  store_ok (self w) = true ->
  let m := self w in
  let total_copies := sum_of Book.copies (Dict.values (books m)) in
  let total_issued := Z.of_nat (List.length (borrowed_records m)) in
  (exists rest,
     printed (world_of (generate_simple_report w today))
     = (printed w
        ++ ReportTotals (Z.of_nat (List.length (books m))) total_copies total_issued
        :: rest)%list)
  /\ total_issued
     = sum_of (fun book => get_borrowed_count m (Book.id book))
              (Dict.values (books m))
  /\ 0 <= total_issued <= total_copies
  /\ total_copies - total_issued = sum_of (available m) (Dict.values (books m)).
Proof.
  intros Hok m total_copies total_issued.
  apply store_ok_parts in Hok as (Hnd & Hkey & Hwc & Hlc). fold m in Hnd, Hkey, Hwc, Hlc.
  assert (Hsum : total_issued
                 = sum_of (fun book => get_borrowed_count m (Book.id book))
                          (Dict.values (books m))).
  { subst total_issued. unfold Dict.values. rewrite sum_of_map.
    rewrite (loans_by_book (books m)); auto.
    - assert (E : forall l : Dict.t Book.t,
                 (forall k b, In (k, b) l -> k = Book.id b) ->
                 sum_of (fun e => count_where
                           (fun r => String.eqb (Loan.book_id r) (fst e))
                           (borrowed_records m)) l
                 = sum_of (fun x => get_borrowed_count m (Book.id (snd x))) l).
      { induction l as [|[k b] l IH]; intros Hl; simpl; auto.
        rewrite IH by (intros k' b' Hin; apply Hl; now right).
        rewrite <- (Hl k b) by now left. reflexivity. }
      apply E. intros k b Hin. now apply (keyed_by_id_spec (books m)).
    - now apply loans_in_catalog_spec. }
  split.
  { unfold generate_simple_report. fold m.
    destruct (overdue_loop _ _ _) as [n|]; simpl.
    - exists [ReportOverdue n]. now rewrite <- app_assoc.
    - exists []. reflexivity. }
  split; [exact Hsum|].
  assert (Havail : total_copies - total_issued
                   = sum_of (available m) (Dict.values (books m))).
  { rewrite Hsum. subst total_copies. unfold available.
    generalize (Dict.values (books m)). intros l.
    induction l as [|b l IH]; simpl; lia. }
  split; [|exact Havail].
  split; [subst total_issued; lia|].
  rewrite Hsum. subst total_copies. apply sum_of_le.
  intros b Hb. unfold Dict.values in Hb.
  apply in_map_iff in Hb as ([k b'] & Hb & Hin). simpl in Hb. subst b'.
  rewrite <- (keyed_by_id_spec _ _ _ Hkey Hin).
  exact (proj1 (within_copies_spec m) Hwc _ _ Hin).
Qed.

(** ** The views *)

Lemma available_books_filter m :
  available_books m
  = map (fun book =>
           {| AvailableEntry.id := Book.id book;
              AvailableEntry.title := Book.title book;
              AvailableEntry.author := Book.author book;
              AvailableEntry.available_copies := available m book |})
        (filter (fun book => 0 <? available m book) (Dict.values (books m))).
Proof.
  unfold available_books. generalize (Dict.values (books m)). intros l.
  set (entry := fun book =>
           {| AvailableEntry.id := Book.id book;
              AvailableEntry.title := Book.title book;
              AvailableEntry.author := Book.author book;
              AvailableEntry.available_copies := available m book |}).
  assert (G : forall acc,
             fold_left
               (fun available_books book =>
                  let borrowed_count := get_borrowed_count m (Book.id book) in
                  let available_copies := Book.copies book - borrowed_count in
                  if 0 <? available_copies
                  then (available_books
                          ++ [ {| AvailableEntry.id := Book.id book;
                                  AvailableEntry.title := Book.title book;
                                  AvailableEntry.author := Book.author book;
                                  AvailableEntry.available_copies :=
                                    available_copies |} ])%list
                  else available_books) l acc
             = (acc ++ map entry
                        (filter (fun book => 0 <? available m book) l))%list).
  { induction l as [|b l IH]; intros acc; simpl.
    - now rewrite app_nil_r.
    - rewrite IH. unfold available at 2.
      destruct (0 <? Book.copies b - get_borrowed_count m (Book.id b)); simpl; auto.
      now rewrite <- app_assoc. }
  apply G.
Qed.

Lemma app_one_neq {A : Type} (l : list A) (x : A) : l <> (l ++ [x])%list.
Proof.
  induction l as [|y l IH]; simpl; [discriminate|].
  intros E. inversion E. contradiction.
Qed.

(** X10. [view_available_books] shows the books with at least one
    available copy, in catalog order, and on a store that satisfies the
    store invariant these are exactly the books a user below the loan cap
    can borrow: [borrow_book] adds a record if and only if the id is one
    of those shown. *)
Theorem shown_available_iff_borrowable w book_id user_id today :
  store_ok (self w) = true ->
  user_loans (self w) user_id < 3 ->
  Date.in_range (today + 7) = true ->
  let m := self w in
  let w' := world_of (borrow_book w book_id (Some user_id) today) in
  map AvailableEntry.id (available_books m)
  = map Book.id (filter (fun book => 0 <? available m book) (Dict.values (books m)))
  /\ (In book_id (map AvailableEntry.id (available_books m)) <->
      exists record,
        borrowed_records (self w') = (borrowed_records m ++ [record])%list).
Proof.
  intros Hok Hcap Hclock m w'.
  apply store_ok_parts in Hok as (Hnd & Hkey & Hwc & Hlc).
  fold m in Hnd, Hkey, Hwc, Hlc.
  assert (Hids : map AvailableEntry.id (available_books m)
                 = map Book.id
                       (filter (fun book => 0 <? available m book)
                               (Dict.values (books m)))).
  { rewrite available_books_filter, map_map. reflexivity. }
  split; [exact Hids|]. rewrite Hids. split.
  - intros Hin. apply in_map_iff in Hin as (book & Hid & Hin).
    apply filter_In in Hin as [Hin Hav]. apply Z.ltb_lt in Hav.
    unfold Dict.values in Hin. apply in_map_iff in Hin as ([k b] & Hb & Hin).
    simpl in Hb. subst b.
    pose proof (keyed_by_id_spec _ _ _ Hkey Hin) as Hk. rewrite Hid in Hk. subst k.
    pose proof (DictFacts.get_in _ _ _ Hnd Hin) as Hget.
    unfold available in Hav. rewrite Hid in Hav.
    subst w'. rewrite (borrow_book_success _ _ _ _ _ Hcap Hget Hav Hclock).
    simpl. rewrite self_save_data. simpl. eauto.
  - intros [record Hrec]. subst w'. unfold borrow_book in Hrec.
    assert (Hno : borrowed_records m <> (borrowed_records m ++ [record])%list).
    { apply app_one_neq. }
    apply Z.leb_gt in Hcap. fold m in Hrec. fold m in Hcap. rewrite Hcap in Hrec.
    destruct (Dict.get book_id (books m)) as [book|] eqn:Hget;
      [|simpl in Hrec; fold m in Hrec; contradiction].
    destruct (0 <? Book.copies book - get_borrowed_count m book_id) eqn:Hav;
      [|simpl in Hrec; fold m in Hrec; contradiction].
    pose proof (DictFacts.in_get _ _ _ Hget) as Hin.
    pose proof (keyed_by_id_spec _ _ _ Hkey Hin) as Hk.
    apply in_map_iff. exists book. split; [auto|].
    apply filter_In. split.
    + unfold Dict.values. apply in_map_iff. now exists (book_id, book).
    + unfold available. now rewrite <- Hk.
Qed.

Lemma length_my_borrowed_records m user_id :
  Z.of_nat (List.length (my_borrowed_records m user_id)) = user_loans m user_id.
Proof.
  unfold my_borrowed_records, user_loans.
  induction (borrowed_records m) as [|r rs IH]; [reflexivity|].
  cbn [filter count_where].
  destruct (String.eqb (Loan.user_id r) user_id); [|lia].
  cbn [List.length]. rewrite Nat2Z.inj_succ. lia.
Qed.

(** X11. On a store that satisfies the store invariant [view_my_books]
    leaves out no loan: it prints one row for every loan record of the
    user, in the order of the records, with the id and the title of the
    catalog book and the due date of the record; there are as many rows
    as the user has loans. *)
Theorem my_books_lists_every_loan m user_id :
  store_ok m = true ->
  let mine := my_borrowed_records m user_id in
  Z.of_nat (List.length mine) = user_loans m user_id
  /\ match mine with
     | [] => view_my_books m (Some user_id) = [InfoNoBooksBorrowed]
     | _ =>
         exists titles,
           List.length titles = List.length mine
           /\ view_my_books m (Some user_id)
              = map (fun '(record, title) =>
                       MyBookRow (Loan.book_id record) title (Loan.due_date record))
                    (combine mine titles)
           /\ forall record title,
                In (record, title) (combine mine titles) ->
                exists book,
                  Dict.get (Loan.book_id record) (books m) = Some book
                  /\ Book.title book = title
     end.
Proof.
  intros Hok mine. split; [apply length_my_borrowed_records|].
  apply store_ok_parts in Hok as (Hnd & Hkey & Hwc & Hlc).
  assert (Hmine : forall r, In r mine -> Dict.mem (Loan.book_id r) (books m) = true).
  { intros r Hr. subst mine. unfold my_borrowed_records in Hr.
    apply filter_In in Hr as [Hr _].
    exact (proj1 (loans_in_catalog_spec m) Hlc r Hr). }
  unfold view_my_books. fold mine.
  destruct mine as [|r0 rest] eqn:E; [reflexivity|].
  rewrite <- E in *. clear E r0 rest.
  induction mine as [|r rs IH].
  - exists []. simpl. repeat split; auto. intros ? ? [].
  - destruct IH as (titles & Hlen & Hview & Htitles).
    { intros x Hx. apply Hmine. now right. }
    pose proof (Hmine r (or_introl eq_refl)) as Hr. unfold Dict.mem in Hr.
    destruct (Dict.get (Loan.book_id r) (books m)) as [book|] eqn:Hget;
      [|discriminate].
    exists (Book.title book :: titles). simpl. rewrite Hget. simpl.
    split; [now rewrite Hlen|]. split.
    + rewrite Hview.
      rewrite <- (keyed_by_id_spec _ _ _ Hkey (DictFacts.in_get _ _ _ Hget)).
      reflexivity.
    + intros record title [Heq | Hin].
      * inversion Heq; subst. eauto.
      * now apply Htitles.
Qed.

(** ** Accounts *)

Lemma find_user_none users username :
  find_user_by_username users username = None <->
  existsb (fun u => String.eqb (User.username u) username) users = false.
Proof.
  unfold find_user_by_username.
  induction users as [|u users IH]; simpl; [split; reflexivity|].
  destruct (String.eqb (User.username u) username); simpl; [|exact IH].
  split; discriminate.
Qed.

Lemma find_user_some users username user :
  find_user_by_username users username = Some user ->
  In user users /\ User.username user = username.
Proof.
  unfold find_user_by_username. intros H.
  apply find_some in H as [Hin Hname]. apply String.eqb_eq in Hname. auto.
Qed.

(** With distinct user names, the user found under a name is the only
    one of that name. *)
Lemma find_user_unique users user :
  usernames_distinct users = true -> In user users ->
  find_user_by_username users (User.username user) = Some user.
Proof.
  unfold find_user_by_username.
  induction users as [|u users IH]; simpl; [tauto|].
  intros Hd [-> | Hin].
  - now rewrite String.eqb_refl.
  - apply andb_true_iff in Hd as [Hu Hd].
    destruct (String.eqb (User.username u) (User.username user)) eqn:E; auto.
    apply negb_true_iff in Hu.
    assert (Hex : existsb (fun u0 => String.eqb (User.username u0) (User.username u))
                          users = true).
    { apply existsb_exists. exists user. split; [assumption|].
      now rewrite String.eqb_sym. }
    congruence.
Qed.

Lemma usernames_distinct_app users user :
  usernames_distinct users = true ->
  find_user_by_username users (User.username user) = None ->
  usernames_distinct (users ++ [user])%list = true.
Proof.
  intros Hd Hnone. apply find_user_none in Hnone.
  induction users as [|u users IH]; simpl in *; auto.
  apply andb_true_iff in Hd as [Hu Hd].
  apply orb_false_iff in Hnone as [Hne Hnone].
  rewrite IH by assumption. rewrite andb_true_r.
  rewrite existsb_app. simpl. rewrite orb_false_r.
  apply negb_true_iff in Hu. rewrite Hu. simpl.
  now rewrite String.eqb_sym, Hne.
Qed.

Lemma say_keeps l a :
  lib (say l a) = lib a /\ USERS (say l a) = USERS a
  /\ CURRENT_USER (say l a) = CURRENT_USER a.
Proof. auto. Qed.

(** The name loop returns the first name typed that is not taken, and
    answers every name before it with the error. *)
Lemma read_new_username_spec entries : forall a,
  exists taken rest,
    entries = (taken ++ rest)%list
    /\ (forall name, In name taken ->
                     find_user_by_username (USERS a) name <> None)
    /\ let a1 := say (repeat ErrUsernameExists (List.length taken)) a in
       match rest with
       | [] => read_new_username entries a = (None, a1)
       | name :: _ =>
           find_user_by_username (USERS a) name = None
           /\ read_new_username entries a = (Some name, a1)
       end.
Proof.
  assert (Hsay0 : forall a, say [] a = a).
  { intros [w us cu sc]. unfold say. simpl. now rewrite app_nil_r. }
  assert (Hsay2 : forall l1 l2 a, say l2 (say l1 a) = say (l1 ++ l2) a).
  { intros l1 l2 a. unfold say. simpl. now rewrite app_assoc. }
  induction entries as [|name entries IH]; intros a.
  - exists [], []. simpl. rewrite Hsay0. auto.
  - simpl. destruct (find_user_by_username (USERS a) name) as [u|] eqn:Hf.
    + destruct (IH (say [ErrUsernameExists] a))
        as (taken & rest & -> & Htaken & Hres).
      exists (name :: taken), rest. split; [reflexivity|]. split.
      * intros n [<- | Hn]; [congruence | now apply Htaken].
      * simpl in *. rewrite Hsay2 in Hres. exact Hres.
    + exists [], (name :: entries). simpl. rewrite Hsay0.
      split; [reflexivity|]. split; [intros ? [] | auto].
Qed.

Lemma run_auth_accounts a op :
  usernames_distinct (USERS a) = true ->
  match CURRENT_USER a with Some u => In u (USERS a) | None => True end ->
  usernames_distinct (USERS (run_auth a op)) = true
  /\ (exists added, USERS (run_auth a op) = (USERS a ++ added)%list)
  /\ match CURRENT_USER (run_auth a op) with
     | Some u => In u (USERS (run_auth a op))
     | None => True
     end.
Proof.
  intros Hd Hcur.
  assert (Hsame : forall a', USERS a' = USERS a ->
                             CURRENT_USER a' = CURRENT_USER a ->
            usernames_distinct (USERS a') = true
            /\ (exists added, USERS a' = (USERS a ++ added)%list)
            /\ match CURRENT_USER a' with
               | Some u => In u (USERS a') | None => True end).
  { intros a' Hu Hc. rewrite Hu, Hc. split; [assumption|].
    split; [exists []; now rewrite app_nil_r | assumption]. }
  assert (Hlogin : forall a' user, USERS a' = USERS a ->
                                   CURRENT_USER a' = Some user -> In user (USERS a) ->
            usernames_distinct (USERS a') = true
            /\ (exists added, USERS a' = (USERS a ++ added)%list)
            /\ match CURRENT_USER a' with
               | Some u => In u (USERS a') | None => True end).
  { intros a' user Hu Hc Hin. rewrite Hu, Hc. split; [assumption|].
    split; [exists []; now rewrite app_nil_r | assumption]. }
  assert (Hreg : forall role entries (ok : string -> line) password uuid,
            match read_new_username entries a with
            | (Some username, a0) =>
                let new_user := User.make uuid username password role in
                let a' := say [ok username] (append_user new_user a0) in
                usernames_distinct (USERS a') = true
                /\ (exists added, USERS a' = (USERS a ++ added)%list)
                /\ match CURRENT_USER a' with
                   | Some u => In u (USERS a') | None => True end
            | (None, a0) =>
                usernames_distinct (USERS a0) = true
                /\ (exists added, USERS a0 = (USERS a ++ added)%list)
                /\ match CURRENT_USER a0 with
                   | Some u => In u (USERS a0) | None => True end
            end).
  { intros role entries ok password uuid.
    destruct (read_new_username_spec entries a) as (taken & rest & _ & _ & Hres).
    simpl in Hres. destruct rest as [|name rest].
    - rewrite Hres. now apply Hsame.
    - destruct Hres as [Hnone ->]. simpl. split.
      + now apply usernames_distinct_app.
      + split; [eauto|]. apply in_or_app. right. now left. }
  destruct op as [n p | n p | es p u | es p u |]; simpl.
  - unfold authenticate_staff.
    destruct (find_user_by_username (USERS a) n) as [user|] eqn:Hf;
      [|now apply Hsame].
    destruct (_ && _); [|now apply Hsame].
    apply (Hlogin _ user); auto. now apply (find_user_some _ n).
  - unfold customer_login.
    destruct (find_user_by_username (USERS a) n) as [user|] eqn:Hf;
      [|now apply Hsame].
    destruct (_ && _); [|now apply Hsame].
    apply (Hlogin _ user); auto. now apply (find_user_some _ n).
  - unfold register_staff. specialize (Hreg "staff" es OkStaffRegistered p u).
    destruct (read_new_username es a) as [[name|] a0]; exact Hreg.
  - unfold customer_register.
    specialize (Hreg "customer" es OkCustomerRegistered p u).
    destruct (read_new_username es a) as [[name|] a0]; exact Hreg.
  - split; [assumption|]. split; [exists []; now rewrite app_nil_r | exact I].
Qed.

(** X12. Through any sequence of logins, registrations and logouts from
    the start of the program, no user name is ever in [USERS] twice, the
    accounts present at the start stay first and unchanged (accounts are
    only appended), and the current user, if any, is one of [USERS]. *)
Theorem accounts_only_grow uuid_admin uuid_jane ops :
  let a := fold_left run_auth ops (start uuid_admin uuid_jane) in
  usernames_distinct (USERS a) = true
  /\ (exists added,
        USERS a = (initial_USERS uuid_admin uuid_jane ++ added)%list)
  /\ match CURRENT_USER a with Some u => In u (USERS a) | None => True end.
Proof.
  assert (G : forall a0,
             usernames_distinct (USERS a0) = true ->
             match CURRENT_USER a0 with
             | Some u => In u (USERS a0) | None => True end ->
             let a := fold_left run_auth ops a0 in
             usernames_distinct (USERS a) = true
             /\ (exists added, USERS a = (USERS a0 ++ added)%list)
             /\ match CURRENT_USER a with
                | Some u => In u (USERS a) | None => True end).
  { induction ops as [|op ops IH]; intros a0 Hd Hc; simpl.
    - split; [assumption|]. split; [exists []; now rewrite app_nil_r | assumption].
    - destruct (run_auth_accounts a0 op Hd Hc) as (Hd' & [added Hadd] & Hc').
      destruct (IH _ Hd' Hc') as (H1 & [added' H2] & H3).
      split; [assumption|]. split; [|assumption].
      exists (added ++ added')%list. rewrite H2, Hadd. now rewrite app_assoc. }
  apply (G (start uuid_admin uuid_jane)); reflexivity.
Qed.

(** X13. With distinct user names, [authenticate_staff] succeeds exactly
    when some account has the given name, the given password and the role
    staff; it then makes that account the current user.  Otherwise it
    prints the error and changes nothing else: whoever was logged in
    stays logged in.  [customer_login] does the same for the role
    customer, so an account of one role cannot log in as the other. *)
Theorem login_checks_name_password_role a username password :
  usernames_distinct (USERS a) = true ->
  let account role user :=
    In user (USERS a) /\ User.username user = username
    /\ User.password user = password /\ User.role user = role in
  (let '(ok, a') := authenticate_staff a username password in
   if ok then
     exists user, account "staff" user
                  /\ a' = say [OkWelcomeBack username] (login_as user a)
   else (forall user, ~ account "staff" user) /\ a' = say [ErrStaffLogin] a)
  /\ (let '(ok, a') := customer_login a username password in
      if ok then
        exists user, account "customer" user
                     /\ a' = say [OkWelcome username] (login_as user a)
      else (forall user, ~ account "customer" user)
           /\ a' = say [ErrCustomerLogin] a).
Proof.
  intros Hd account.
  assert (Hnone : find_user_by_username (USERS a) username = None ->
                  forall role user, ~ account role user).
  { intros Hf role user (Hin & Hname & _). subst username.
    rewrite (find_user_unique _ _ Hd Hin) in Hf. discriminate. }
  assert (Hsome : forall found role,
             find_user_by_username (USERS a) username = Some found ->
             String.eqb (User.password found) password
             && String.eqb (User.role found) role = false ->
             forall user, ~ account role user).
  { intros found role Hf Hbad user (Hin & Hname & Hpw & Hrole). subst username.
    rewrite (find_user_unique _ _ Hd Hin) in Hf. inversion Hf; subst found.
    rewrite Hpw, Hrole, !String.eqb_refl in Hbad. discriminate. }
  assert (Hgood : forall found role,
             find_user_by_username (USERS a) username = Some found ->
             String.eqb (User.password found) password
             && String.eqb (User.role found) role = true ->
             account role found).
  { intros found role Hf Hok. apply find_user_some in Hf as [Hin Hname].
    apply andb_true_iff in Hok as [Hpw Hrole].
    apply String.eqb_eq in Hpw, Hrole. repeat split; assumption. }
  split.
  - unfold authenticate_staff.
    destruct (find_user_by_username (USERS a) username) as [found|] eqn:Hf.
    + destruct (_ && _) eqn:E.
      * exists found. split; [now apply Hgood | reflexivity].
      * split; [now apply (Hsome found) | reflexivity].
    + split; [now apply Hnone | reflexivity].
  - unfold customer_login.
    destruct (find_user_by_username (USERS a) username) as [found|] eqn:Hf.
    + destruct (_ && _) eqn:E.
      * exists found. split; [now apply Hgood | reflexivity].
      * split; [now apply (Hsome found) | reflexivity].
    + split; [now apply Hnone | reflexivity].
Qed.

Lemma find_user_app users user username :
  find_user_by_username users username = None ->
  User.username user = username ->
  find_user_by_username (users ++ [user])%list username = Some user.
Proof.
  intros Hnone Hname. unfold find_user_by_username in *.
  rewrite find_app, Hnone. simpl. subst. now rewrite String.eqb_refl.
Qed.

(** X14. A customer who has registered can log in again.  When
    [customer_register] ends normally, the new account carries the first
    name typed that was not taken (every name typed before it was
    taken), is appended to [USERS] and is the current user; after a
    logout, [customer_login] with that name and password succeeds and
    makes the same account current, while [authenticate_staff] with them
    is refused. *)
Theorem registered_customer_can_log_in a entries password uuid a1 :
  customer_register a entries password uuid = UiDone a1 ->
  exists taken username rest,
    entries = (taken ++ username :: rest)%list
    /\ (forall name, In name taken ->
                     find_user_by_username (USERS a) name <> None)
    /\ find_user_by_username (USERS a) username = None
    /\ let new_customer := User.make uuid username password "customer" in
       USERS a1 = (USERS a ++ [new_customer])%list
       /\ CURRENT_USER a1 = Some new_customer
       /\ lib a1 = lib a
       /\ fst (customer_login (logout a1) username password) = true
       /\ CURRENT_USER (snd (customer_login (logout a1) username password))
          = Some new_customer
       /\ fst (authenticate_staff (logout a1) username password) = false.
Proof.
  unfold customer_register. intros Hreg.
  destruct (read_new_username_spec entries a)
    as (taken & rest & Hsplit & Htaken & Hres).
  simpl in Hres. destruct rest as [|name rest].
  - rewrite Hres in Hreg. discriminate.
  - destruct Hres as [Hnone Hres]. rewrite Hres in Hreg.
    inversion Hreg; subst a1. clear Hreg.
    exists taken, name, rest. split; [assumption|]. split; [assumption|].
    split; [assumption|]. simpl.
    split; [reflexivity|]. split; [reflexivity|]. split; [reflexivity|].
    unfold customer_login, authenticate_staff, logout. simpl.
    rewrite (find_user_app _ (User.make uuid name password "customer") name Hnone eq_refl).
    simpl. rewrite String.eqb_refl. simpl. auto.
Qed.

(** ** The menus *)

Lemma borrow_book_frame w book_id user_id today :
  let w' := world_of (borrow_book w book_id (Some user_id) today) in
  books (self w') = books (self w)
  /\ forall other, other <> user_id ->
       my_borrowed_records (self w') other = my_borrowed_records (self w) other.
Proof.
  unfold borrow_book.
  destruct (3 <=? user_loans (self w) user_id); [simpl; auto|].
  destruct (Dict.get book_id (books (self w))) as [b|]; [|simpl; auto].
  destruct (0 <? _); [|simpl; auto].
  destruct (Date.add_days today 7); [|simpl; auto].
  simpl. rewrite self_save_data. simpl. split; [reflexivity|].
  intros other Hne. unfold my_borrowed_records. simpl.
  rewrite filter_app. simpl.
  apply String.eqb_neq in Hne. rewrite String.eqb_sym, Hne.
  apply app_nil_r.
Qed.

Lemma return_book_frame w book_id user_id :
  let w' := return_book w book_id (Some user_id) in
  books (self w') = books (self w)
  /\ forall other, other <> user_id ->
       my_borrowed_records (self w') other = my_borrowed_records (self w) other.
Proof.
  unfold return_book.
  destruct (find _ _) as [r|] eqn:Hf; [|simpl; auto].
  destruct (find_then_remove _ _ _ Hf) as (l1 & l2 & Hrec & _ & Hr & Hrm).
  simpl. rewrite self_save_data. simpl. split; [reflexivity|].
  intros other Hne. unfold my_borrowed_records. simpl.
  rewrite Hrm, Hrec, !filter_app. simpl.
  unfold loan_of in Hr. apply andb_true_iff in Hr as [Hu _].
  apply String.eqb_eq in Hu. rewrite Hu.
  apply String.eqb_neq in Hne. rewrite String.eqb_sym, Hne. reflexivity.
Qed.

Lemma say_say l1 l2 a : say l2 (say l1 a) = say (l1 ++ l2) a.
Proof. unfold say. simpl. now rewrite app_assoc. Qed.

Lemma say_nil a : say [] a = a.
Proof. destruct a. unfold say. simpl. now rewrite app_nil_r. Qed.

(** What a prompt loop does with the lines typed: it skips, with an
    error each, the lines that are neither [q] nor an id of the catalog,
    and acts on the first line that is one of the two. *)
Lemma prompt_spec (act : string -> App -> ui_outcome)
      (loop : list string -> App -> ui_outcome) :
  (forall a, loop [] a = UiRaised EOFError a) ->
  (forall e rest a,
     loop (e :: rest) a
     = if is_q e then UiDone a
       else if Dict.mem e (books (self (lib a))) then act e a
       else loop rest (say [ErrInvalidBookId] a)) ->
  forall entries a,
  exists rejected rest,
    entries = (rejected ++ rest)%list
    /\ (forall e, In e rejected ->
          is_q e = false /\ Dict.mem e (books (self (lib a))) = false)
    /\ let a0 := say (repeat ErrInvalidBookId (List.length rejected)) a in
       match rest with
       | [] => loop entries a = UiRaised EOFError a0
       | e :: _ =>
           if is_q e then loop entries a = UiDone a0
           else Dict.mem e (books (self (lib a))) = true
                /\ loop entries a = act e a0
       end.
Proof.
  intros Hnil Hcons. induction entries as [|e entries IH]; intros a.
  - exists [], []. simpl. rewrite say_nil.
    split; [reflexivity|]. split; [intros ? [] | apply Hnil].
  - pose proof (Hcons e entries a) as Hstep.
    destruct (is_q e) eqn:Hq.
    + exists [], (e :: entries). simpl. rewrite say_nil, Hq.
      split; [reflexivity|]. split; [intros ? [] | exact Hstep].
    + destruct (Dict.mem e (books (self (lib a)))) eqn:Hmem.
      * exists [], (e :: entries). simpl. rewrite say_nil, Hq.
        split; [reflexivity|]. split; [intros ? []|]. split; [assumption | exact Hstep].
      * destruct (IH (say [ErrInvalidBookId] a))
          as (rejected & rest & Hsplit & Hrej & Hres).
        exists (e :: rejected), rest.
        split; [simpl; now rewrite Hsplit|]. split.
        -- intros x [<- | Hx]; [auto | now apply Hrej].
        -- simpl in *. rewrite say_say in Hres. simpl in Hres.
           rewrite Hstep. exact Hres.
Qed.

(** X15. [customer_borrow_menu] for a logged-in customer first shows the
    available books, then reads lines until one is [q] (in either case)
    or an id of the catalog, answering each other line with the
    invalid-id error.  On [q] it changes nothing; on an id of the catalog
    it makes the one call of [borrow_book] for the current user's id; if
    the input ends first, [EOFError] is raised with the library as it
    was. *)
Theorem borrow_menu_asks_until_valid a entries today user :
  CURRENT_USER a = Some user ->
  User.id user <> "" ->
  exists rejected rest,
    entries = (rejected ++ rest)%list
    /\ (forall e, In e rejected ->
          is_q e = false /\ Dict.mem e (books (self (lib a))) = false)
    /\ let a0 :=
         say (view_available_books (self (lib a))
              ++ repeat ErrInvalidBookId (List.length rejected))%list a in
       match rest with
       | [] => customer_borrow_menu a entries today = UiRaised EOFError a0
       | e :: _ =>
           if is_q e then customer_borrow_menu a entries today = UiDone a0
           else
             Dict.mem e (books (self (lib a))) = true
             /\ customer_borrow_menu a entries today
                = lift (borrow_book (lib a) e (Some (User.id user)) today) a0
       end.
Proof.
  intros Hcur Hid. unfold customer_borrow_menu, get_user_id. simpl.
  rewrite Hcur. simpl.
  apply String.eqb_neq in Hid. rewrite Hid.
  destruct (prompt_spec
              (fun e a1 => lift (borrow_book (lib a1) e (Some (User.id user)) today) a1)
              (fun es a1 => borrow_prompt es (User.id user) today a1)
              (fun _ => eq_refl) (fun _ _ _ => eq_refl) entries
              (say (view_available_books (self (lib a))) a))
    as (rejected & rest & Hsplit & Hrej & Hres).
  exists rejected, rest. split; [assumption|]. split; [exact Hrej|].
  simpl in Hres. rewrite say_say in Hres. exact Hres.
Qed.

Lemma prompt_frame (P : App -> Prop) (act : string -> App -> ui_outcome)
      (loop : list string -> App -> ui_outcome) :
  (forall a, loop [] a = UiRaised EOFError a) ->
  (forall e rest a,
     loop (e :: rest) a
     = if is_q e then UiDone a
       else if Dict.mem e (books (self (lib a))) then act e a
       else loop rest (say [ErrInvalidBookId] a)) ->
  (forall l a, P a -> P (say l a)) ->
  (forall e a, P a -> P (app_of (act e a))) ->
  forall entries a, P a -> P (app_of (loop entries a)).
Proof.
  intros Hnil Hcons Hsay Hact.
  induction entries as [|e entries IH]; intros a Ha.
  - now rewrite Hnil.
  - rewrite Hcons. destruct (is_q e); [exact Ha|].
    destruct (Dict.mem e (books (self (lib a)))); [now apply Hact|].
    apply IH. now apply Hsay.
Qed.

(** X16. The two customer menus act for the current user only.  Whatever
    is typed, [customer_borrow_menu] and [customer_return_menu] leave the
    accounts, the current user, the catalog and the loan records of every
    other user as they were; when nobody is logged in they leave the
    whole library as it was. *)
Theorem customer_menus_serve_the_current_user a entries today :
  let unchanged_for_others a' :=
    USERS a' = USERS a /\ CURRENT_USER a' = CURRENT_USER a
    /\ books (self (lib a')) = books (self (lib a))
    /\ forall other,
         get_user_id a <> Some other ->
         my_borrowed_records (self (lib a')) other
         = my_borrowed_records (self (lib a)) other in
  unchanged_for_others (app_of (customer_borrow_menu a entries today))
  /\ unchanged_for_others (app_of (customer_return_menu a entries))
  /\ (no_user (get_user_id a) = true ->
      lib (app_of (customer_borrow_menu a entries today)) = lib a
      /\ lib (app_of (customer_return_menu a entries)) = lib a).
Proof.
  intros unchanged_for_others.
  assert (Hrefl : unchanged_for_others a) by (repeat split; auto).
  assert (Hsay : forall l a', unchanged_for_others a' ->
                              unchanged_for_others (say l a')) by auto.
  split; [|split].
  - unfold customer_borrow_menu.
    destruct (no_user _) eqn:Hno; [now apply Hsay|].
    destruct (get_user_id (say _ a)) as [uid|] eqn:Hu; [|now apply Hsay].
    apply (prompt_frame unchanged_for_others
             (fun e a1 => lift (borrow_book (lib a1) e (Some uid) today) a1)
             (fun es a1 => borrow_prompt es uid today a1));
      auto.
    intros e a1 (H1 & H2 & H3 & H4).
    destruct (borrow_book_frame (lib a1) e uid today) as [Hb Ho].
    assert (Happ : forall o, USERS (app_of (lift o a1)) = USERS a1
                             /\ CURRENT_USER (app_of (lift o a1)) = CURRENT_USER a1
                             /\ lib (app_of (lift o a1)) = world_of o)
      by (intros [w1|e1 w1]; simpl; auto).
    destruct (Happ (borrow_book (lib a1) e (Some uid) today)) as (U1 & U2 & U3).
    unfold unchanged_for_others. rewrite U1, U2, U3, Hb.
    repeat split; auto.
    intros other Hother. rewrite Ho; [now apply H4|].
    intros ->. apply Hother. exact Hu.
  - unfold customer_return_menu.
    destruct (no_user _) eqn:Hno; [now apply Hsay|].
    destruct (get_user_id a) as [uid|] eqn:Hu; [|now apply Hsay].
    destruct (my_borrowed_records _ uid); [now apply Hsay|].
    apply (prompt_frame unchanged_for_others
             (fun e a1 => UiDone (with_lib (return_book (lib a1) e (Some uid)) a1))
             (fun es a1 => return_prompt es uid a1));
      auto.
    intros e a1 (H1 & H2 & H3 & H4).
    destruct (return_book_frame (lib a1) e uid) as [Hb Ho].
    unfold unchanged_for_others.
    cbn [app_of with_lib lib USERS CURRENT_USER]. rewrite Hb.
    repeat split; auto.
    intros other Hother. rewrite Ho; [now apply H4|].
    intros ->. now apply Hother.
  - intros Hno. unfold customer_borrow_menu, customer_return_menu.
    assert (Hno' : no_user (get_user_id (say (view_available_books (self (lib a))) a))
                   = true) by exact Hno.
    rewrite Hno', Hno. auto.
Qed.

(** X17. [staff_delete_book_menu] removes at most one book, and only one
    without loans: the loan records, the accounts and the current user
    stay as they were, and the catalog is either unchanged or has lost
    the entry of one id that was typed, is in the catalog and has no
    loan record.  With an empty catalog the menu prints that the catalog
    is empty and reads no input. *)
Theorem delete_menu_removes_at_most_one a entries :
  let a' := app_of (staff_delete_book_menu a entries) in
  let m := self (lib a) in
  borrowed_records (self (lib a')) = borrowed_records m
  /\ USERS a' = USERS a /\ CURRENT_USER a' = CURRENT_USER a
  /\ (books (self (lib a')) = books m
      \/ exists book_id,
           In book_id entries /\ Dict.mem book_id (books m) = true
           /\ get_borrowed_count m book_id = 0
           /\ books (self (lib a')) = Dict.del book_id (books m))
  /\ (books m = [] ->
      staff_delete_book_menu a entries = UiDone (say [InfoCatalogEmpty] a)).
Proof.
  intros a' m. subst a'.
  set (P := fun (es : list string) (a1 : App) =>
              borrowed_records (self (lib a1)) = borrowed_records m
              /\ USERS a1 = USERS a /\ CURRENT_USER a1 = CURRENT_USER a
              /\ (books (self (lib a1)) = books m
                  \/ exists book_id,
                       In book_id es /\ Dict.mem book_id (books m) = true
                       /\ get_borrowed_count m book_id = 0
                       /\ books (self (lib a1)) = Dict.del book_id (books m))).
  assert (Hloop : forall es a1,
             self (lib a1) = m -> USERS a1 = USERS a ->
             CURRENT_USER a1 = CURRENT_USER a ->
             P es (app_of (delete_prompt es a1))).
  { induction es as [|e es IH]; intros a1 Hm Hu Hc; simpl.
    - unfold P. rewrite Hm. auto.
    - destruct (is_q e); [unfold P; simpl; rewrite Hm; auto|].
      rewrite Hm.
      destruct (Dict.mem e (books m)) eqn:Hmem.
      + simpl. unfold delete_book. rewrite Hm.
        unfold Dict.mem in Hmem.
        destruct (Dict.get e (books m)) as [b|] eqn:Hget; [|discriminate].
        destruct (0 <? get_borrowed_count m e) eqn:Hcount.
        * unfold P. simpl. rewrite Hm. auto.
        * unfold P. simpl. rewrite self_save_data. simpl. rewrite Hm.
          repeat split; auto. right. exists e.
          split; [now left|]. unfold Dict.mem. rewrite Hget.
          split; [reflexivity|]. split; [|reflexivity].
          apply Z.ltb_ge in Hcount.
          pose proof (count_where_nonneg
                        (fun record => String.eqb (Loan.book_id record) e)
                        (borrowed_records m)).
          unfold get_borrowed_count in *. lia.
      + destruct (IH (say [ErrInvalidBookId] a1) Hm Hu Hc)
          as (H1 & H2 & H3 & H4).
        unfold P. repeat split; auto.
        destruct H4 as [H4 | (k & Hk & Hrest)]; [now left|].
        right. exists k. split; [now right | assumption]. }
  unfold staff_delete_book_menu. simpl. fold m.
  destruct (books m) as [|entry rest] eqn:Hbooks.
  - simpl. unfold display_book_database. fold m. rewrite Hbooks.
    repeat split; auto.
  - destruct (Hloop entries (say (display_book_database m) a) eq_refl eq_refl eq_refl)
      as (H1 & H2 & H3 & H4).
    repeat split; auto. intros Hnil. discriminate Hnil.
Qed.

(** X18. The staff menu keeps the store invariant.  On a store that
    satisfies it, with an id from [uuid4] that is not yet in the catalog,
    [staff_add_book_menu] gives a store that satisfies it again, whatever
    is typed for the number of copies. *)
Theorem add_menu_keeps_store_ok w title author entries uuid :
  store_ok (self w) = true ->
  Dict.mem uuid (books (self w)) = false ->
  store_ok (self (world_of (staff_add_book_menu w title author entries uuid)))
  = true.
Proof.
  intros Hok Hfresh. unfold staff_add_book_menu.
  destruct (read_copies_spec entries w) as (rejected & rest & _ & _ & Hres).
  destruct (prints_keep_state rejected ErrPositiveCopies w) as (Hself & _ & _).
  simpl in Hres. destruct rest as [|e rest].
  - rewrite Hres. simpl. now rewrite Hself.
  - destruct Hres as (copies & _ & Hpos & Hres). rewrite Hres.
    unfold add_book. simpl. rewrite self_save_data. simpl. rewrite Hself.
    apply store_ok_add; auto. simpl. lia.
Qed.

End Library.

(** ** The calendar on some known days *)

Example ordinal_1970 : Date.ymd2ord 1970 1 1 = 719163.
Proof. reflexivity. Qed.

Example strftime_2026 :
  Date.strftime_ymd (Date.ymd2ord 2026 11 4 + 7) = "2026-11-11".
Proof. vm_compute. reflexivity. Qed.

Example strftime_leap : Date.strftime_ymd (Date.ymd2ord 2024 2 28 + 1) = "2024-02-29".
Proof. vm_compute. reflexivity. Qed.

Example strftime_eoy : Date.strftime_ymd (Date.ymd2ord 2024 12 31) = "2024-12-31".
Proof. vm_compute. reflexivity. Qed.

Example strftime_max : Date.strftime_ymd Date.MAXORDINAL = "9999-12-31".
Proof. vm_compute. reflexivity. Qed.

Example fromiso_2026 : Date.fromisoformat "2026-11-11" = Some (Date.ymd2ord 2026 11 11).
Proof. vm_compute. reflexivity. Qed.

Example fromiso_bad : Date.fromisoformat "2026-02-30" = None.
Proof. vm_compute. reflexivity. Qed.

(** ** The sample session *)

(** One copy is left after the first loan; the same user gets the second
    copy as well; the third request finds no copy and adds no record. *)
Example dune_session :
  let w1 := run_all Str.ascii_lower (firstn 2 dune_ops) (seeded true) in
  let w2 := run_all Str.ascii_lower (firstn 3 dune_ops) (seeded true) in
  let w3 := run_all Str.ascii_lower dune_ops (seeded true) in
  available (self w1) dune = 1
  /\ borrowed_records (self w2)
     = [ Loan.make "u1" "b-dune" "2026-11-11";
         Loan.make "u1" "b-dune" "2026-11-11" ]
  /\ available (self w2) dune = 0
  /\ self w3 = self w2
  /\ printed w3 = (printed w2 ++ [ErrAllBorrowed "Dune"])%list
  /\ data_file w3 = Content (data_to_save (self w2)).
Proof. vm_compute. repeat split. Qed.

(** The cap, not the book, stops a user: with three loans of one title
    the fourth request is refused although copies are left. *)
Example cap_session :
  let ops :=
    [ BorrowBook "2" (Some "u1") a_day; BorrowBook "2" (Some "u1") a_day;
      BorrowBook "2" (Some "u1") a_day ] in
  let w3 := run_all Str.ascii_lower ops (seeded true) in
  let w4 := run Str.ascii_lower w3 (BorrowBook "2" (Some "u1") a_day) in
  user_loans (self w3) "u1" = 3
  /\ get_borrowed_count (self w3) "2" = 3
  /\ self w4 = self w3
  /\ printed w4 = (printed w3 ++ [ErrLimit])%list.
Proof. vm_compute. repeat split. Qed.

(** ** Instances *)

Lemma borrow_book_spec_witness :
  exists w',
    borrow_book (seeded true) "1" (Some "u1") a_day = Done w'
    /\ borrowed_records (self w') = [Loan.make "u1" "1" "2026-11-11"].
Proof.
  destruct (borrow_book_spec (seeded true) "1" "u1" a_day eq_refl)
    as (_ & H & _).
  destruct (H eq_refl) as (book & w' & _ & Hrun & _ & _ & Hrec & _).
  exists w'. split; [exact Hrun|]. rewrite Hrec. reflexivity.
Defined.

(** C1 as the specification words it fails on a book entered with a
    negative number of copies: the user has no loan, the id is in the
    catalog and the available copies are -1, not 0, and yet the request
    is refused and no record is added. *)
Lemma borrow_refused_with_negative_availability :
  let w := negative_store in
  user_loans (self w) "u1" = 0
  /\ Dict.get "b-neg" (books (self w)) = Some negative_book
  /\ available (self w) negative_book = -1
  /\ borrow_book w "b-neg" (Some "u1") a_day
     = Done (print (ErrAllBorrowed "X") w)
  /\ borrowed_records (self (print (ErrAllBorrowed "X") w))
     = borrowed_records (self w).
Proof. vm_compute. repeat split. Qed.

(** C2 as the specification words it fails on the same book: [add_book]
    takes the negative count, and the book then has more loans, namely
    none, than copies. *)
Lemma negative_copies_break_the_bound :
  let w := run_all Str.ascii_lower [AddBook "X" "Y" (-1) "b-neg"] (seeded true) in
  In negative_book (Dict.values (books (self w)))
  /\ get_borrowed_count (self w) (Book.id negative_book) = 0
  /\ Book.copies negative_book = -1
  /\ ~ (0 <= get_borrowed_count (self w) (Book.id negative_book)
          <= Book.copies negative_book).
Proof.
  vm_compute. repeat split; auto.
  intros [_ H]. apply H. reflexivity.
Qed.

Lemma borrowed_count_within_copies_witness :
  admissible_all Str.ascii_lower dune_ops (seeded true) = true
  /\ 0 <= get_borrowed_count (self (run_all Str.ascii_lower dune_ops (seeded true))) "b-dune" <= 2.
Proof.
  split; [reflexivity|].
  apply (borrowed_count_within_copies Str.ascii_lower true dune_ops eq_refl dune).
  vm_compute. tauto.
Defined.

Lemma save_then_load_round_trip_witness :
  self (LibraryManager_init
          (elsewhere (save_data (run_all Str.ascii_lower dune_ops (seeded true)))))
  = self (run_all Str.ascii_lower dune_ops (seeded true)).
Proof. apply save_then_load_round_trip; reflexivity. Defined.

Lemma seeded_store_and_report_witness :
  generate_simple_report (LibraryManager_init no_file) a_day
  = Done (print (ReportOverdue 0)
            (print (ReportTotals 3 9 0) (LibraryManager_init no_file))).
Proof.
  exact (proj1 (proj2 (proj2 (seeded_store_and_report no_file a_day eq_refl)))).
Defined.

(** [add_book] with a copy count of zero, and with a negative one: no
    failure is reported, the book is in the catalog and in the data file. *)
Lemma add_book_accepts_nonpositive_copies :
  let w := seeded true in
  let w0 := snd (add_book w "Dune" "Herbert" 0 "b-0") in
  let w1 := snd (add_book w "Dune" "Herbert" (-2) "b-1") in
  Dict.get "b-0" (books (self w)) = None
  /\ Dict.get "b-0" (books (self w0)) = Some (Book.make "b-0" "Dune" "Herbert" 0)
  /\ data_file w = Absent
  /\ data_file w0 = Content (data_to_save (self w0))
  /\ printed w0 = (printed w ++ [InfoSaved])%list
  /\ Dict.get "b-1" (books (self w1)) = Some (Book.make "b-1" "Dune" "Herbert" (-2))
  /\ data_file w1 = Content (data_to_save (self w1))
  /\ printed w1 = (printed w ++ [InfoSaved])%list.
Proof. vm_compute. repeat split. Qed.


(** C7 as the specification words it fails on Greek text.  The title
    holds the very characters of the query, so the query is a
    case-insensitive substring of it; but lowering the title alone turns
    its last letter into the final form of the small sigma, which the
    lowered query does not have, and the book is not found. *)
Lemma search_misses_final_sigma :
  (forall s, Str.is_ascii s = true -> sigma_lower s = Str.ascii_lower s)
  /\ In greek_book (Dict.values (books (self greek_store)))
  /\ Book.title greek_book = "ΑΣ"
  /\ Str.ci_substring "Σ" "ΑΣ"
  /\ search_results sigma_lower (self greek_store) (sigma_lower "Σ") = [].
Proof.
  split; [|split; [|split; [|split]]].
  - intros s Hs. unfold sigma_lower.
    destruct (String.eqb s "ΑΣ") eqn:E1.
    { apply String.eqb_eq in E1. subst s. discriminate Hs. }
    destruct (String.eqb s "Σ") eqn:E2; [|reflexivity].
    apply String.eqb_eq in E2. subst s. discriminate Hs.
  - vm_compute. tauto.
  - reflexivity.
  - exists "Α", "Σ", "". split; [reflexivity|].
    apply StrFacts.same_nocase_refl.
  - vm_compute. reflexivity.
Qed.

(** On ASCII text the search does ignore the case of the letters. *)
Example search_ignores_ascii_case :
  search_results Str.ascii_lower (self (seeded true)) (Str.ascii_lower "gEoRgE")
  = [(Book.make "2" "1984" "George Orwell" 5, 5)].
Proof. vm_compute. reflexivity. Qed.

(** ** Instances of the properties above *)

Lemma new_loan_overdue_after_a_week_witness :
  overdue_loop (a_day + 8)
    (borrowed_records
       (self (world_of (borrow_book (seeded true) "1" (Some "u1") a_day)))) 0
  = Some 1.
Proof.
  exact (new_loan_overdue_after_a_week (seeded true) "1" "u1" a_day (a_day + 8)
           gatsby 0 eq_refl eq_refl eq_refl eq_refl eq_refl).
Defined.

Lemma borrow_takes_one_copy_witness :
  available (self (world_of (borrow_book (seeded true) "1" (Some "u1") a_day)))
            gatsby = 2.
Proof.
  exact (proj2 (borrow_takes_one_copy (seeded true) "1" "u1" a_day gatsby
                  eq_refl eq_refl eq_refl eq_refl) gatsby).
Defined.

Lemma add_book_appends_witness :
  Dict.get "b-dune"
    (books (self (snd (add_book (seeded true) "Dune" "Herbert" 2 "b-dune"))))
  = Some dune.
Proof.
  destruct (add_book_appends (seeded true) "Dune" "Herbert" 2 "b-dune"
              eq_refl eq_refl) as (_ & _ & H & _).
  exact H.
Defined.

Lemma delete_undoes_add_witness :
  self (snd (delete_book (snd (add_book (seeded true) "Dune" "Herbert" 2 "b-dune"))
                         "b-dune"))
  = self (seeded true).
Proof.
  exact (proj2 (delete_undoes_add (seeded true) "Dune" "Herbert" 2 "b-dune"
                  eq_refl eq_refl)).
Defined.

Lemma return_after_borrow_witness :
  borrowed_records
    (self (return_book
             (world_of (borrow_book (seeded true) "1" (Some "u1") a_day))
             "1" (Some "u1")))
  = [].
Proof.
  exact (proj2 (return_after_borrow (seeded true) "1" "u1" a_day gatsby
                  eq_refl eq_refl eq_refl eq_refl)).
Defined.

Lemma restart_keeps_the_store_witness :
  self (LibraryManager_init
          (elsewhere (run_all Str.ascii_lower dune_ops (seeded true))))
  = self (run_all Str.ascii_lower dune_ops (seeded true)).
Proof. apply restart_keeps_the_store; reflexivity. Defined.

Lemma report_totals_consistent_witness :
  0 <= Z.of_nat (List.length (borrowed_records (self (run_all Str.ascii_lower dune_ops (seeded true)))))
    <= sum_of Book.copies
              (Dict.values (books (self (run_all Str.ascii_lower dune_ops (seeded true))))).
Proof.
  exact (proj1 (proj2 (proj2 (report_totals_consistent
                                (run_all Str.ascii_lower dune_ops (seeded true)) a_day eq_refl)))).
Defined.

Lemma shown_available_iff_borrowable_witness :
  In "1" (map AvailableEntry.id (available_books (self (seeded true)))) <->
  exists record,
    borrowed_records
      (self (world_of (borrow_book (seeded true) "1" (Some "u1") a_day)))
    = (borrowed_records (self (seeded true)) ++ [record])%list.
Proof.
  exact (proj2 (shown_available_iff_borrowable (seeded true) "1" "u1" a_day
                  eq_refl eq_refl eq_refl)).
Defined.

Lemma my_books_lists_every_loan_witness :
  Z.of_nat (List.length
              (my_borrowed_records (self (run_all Str.ascii_lower dune_ops (seeded true))) "u1"))
  = user_loans (self (run_all Str.ascii_lower dune_ops (seeded true))) "u1".
Proof.
  exact (proj1 (my_books_lists_every_loan
                  (self (run_all Str.ascii_lower dune_ops (seeded true))) "u1" eq_refl)).
Defined.

Lemma login_checks_name_password_role_witness :
  exists user,
    User.role user = "staff"
    /\ snd (authenticate_staff sample_app "admin" "123")
       = say [OkWelcomeBack "admin"] (login_as user sample_app).
Proof.
  destruct (login_checks_name_password_role sample_app "admin" "123" eq_refl)
    as [(user & (_ & _ & _ & Hrole) & Heq) _].
  exists user. split; [exact Hrole | exact Heq].
Defined.

Lemma registered_customer_can_log_in_witness :
  exists taken username rest,
    ["admin"; "bob"; "carol"] = (taken ++ username :: rest)%list
    /\ (forall name, In name taken ->
                     find_user_by_username (USERS sample_app) name <> None)
    /\ find_user_by_username (USERS sample_app) username = None.
Proof.
  destruct (registered_customer_can_log_in sample_app ["admin"; "bob"; "carol"]
              "pw" "id-bob" _ eq_refl)
    as (taken & username & rest & Hsplit & Htaken & Hnone & _).
  exists taken, username, rest. auto.
Defined.

Lemma borrow_menu_asks_until_valid_witness :
  exists rejected rest,
    ["no such id"; "1"] = (rejected ++ rest)%list
    /\ forall e, In e rejected ->
         is_q e = false /\ Dict.mem e (books (self (lib jane_app))) = false.
Proof.
  destruct (borrow_menu_asks_until_valid jane_app ["no such id"; "1"] a_day jane
              eq_refl ltac:(discriminate))
    as (rejected & rest & Hsplit & Hrej & _).
  exists rejected, rest. split; [exact Hsplit | exact Hrej].
Defined.

Lemma add_menu_keeps_store_ok_witness :
  store_ok (self (world_of (staff_add_book_menu (seeded true) "Dune" "Herbert"
                              [None; Some 0; Some 2] "b-dune")))
  = true.
Proof. apply add_menu_keeps_store_ok; reflexivity. Defined.

(** The sample inputs behave as the properties say. *)
Example jane_borrows_through_the_menu :
  let a' := app_of (customer_borrow_menu jane_app ["no such id"; "1"] a_day) in
  borrowed_records (self (lib a')) = [Loan.make "id-jane" "1" "2026-11-11"]
  /\ screen a'
     = [ AvailableRow (AvailableEntry.make "1" "The Great Gatsby"
                                            "F. Scott Fitzgerald" 3);
         AvailableRow (AvailableEntry.make "2" "1984" "George Orwell" 5);
         AvailableRow (AvailableEntry.make "3" "Moby Dick" "Herman Melville" 1);
         ErrInvalidBookId ].
Proof. vm_compute. split; reflexivity. Qed.
